(** * cdk-sqs-lambda-pattern: the batch consumer, the ingestion mapping and
      the queue declarations

    The development embeds three parts of the repository:
    - [lambda/sample-lambda-2/index.js]: the batch consumer [handler];
    - [lib/cdk-sqs-lambda-pattern-stack.ts]: the [BackendStack] declarations
      (queues, dead-letter queues, functions, event sources, the REST API and
      its two queue integrations with their mapping templates);
    - the life cycle of one queued message under those declarations. *)

From Stdlib Require Import ZArith String Ascii List Bool Lia DecimalString Sorted.
From stdpp Require Import base option list strings gmap.

Open Scope string_scope.
Open Scope list_scope.
Open Scope Z_scope.

Set Warnings "-register-all".

(* ===================================================================== *)
(** ** JavaScript values used by the handler *)
(* ===================================================================== *)

Module JS.

(** A JavaScript string is a sequence of 16-bit code units. The texts the
    handler reads (message ids, bodies, attribute values) are kept as [string],
    one character per code unit below 256; a string produced by [JSON.parse]
    may hold any code unit (an escape [\uXXXX]) and is kept as [list N]. *)
Definition jsstring := list N.

Definition units (s : string) : jsstring :=
  map N_of_ascii (list_ascii_of_string s).

(** An [Error] object: the two fields the handler can observe. *)
Record Error := mkError { name : string; message : string }.

(** The value of [JSON.parse]. A number keeps its literal and the members
    of an object are kept as written, a repeated key included: the handler
    stores the value under [data] and never looks into it. *)
Inductive Value :=
| JNull
| JBool (b : bool)
| JNumber (literal : string)
| JString (s : jsstring)
| JArray (elements : list Value)
| JObject (members : list (jsstring * Value)).

(** [ToBoolean] on a string, and on a property that may be [undefined]
    ([None]). *)
Definition truthy_string (s : string) : bool :=
  match s with EmptyString => false | String _ _ => true end.

Definition truthy (v : option string) : bool :=
  match v with None => false | Some s => truthy_string s end.

(** [a || d] where [a] is a string or [undefined] and [d] a string. *)
Definition or_else (a : option string) (d : string) : string :=
  match a with
  | Some s => if truthy_string s then s else d
  | None => d
  end.

Fixpoint drop_chars (n : nat) (s : string) : string :=
  match n, s with
  | O, _ => s
  | S _, EmptyString => EmptyString
  | S n', String _ s' => drop_chars n' s'
  end.

(** [s.slice(start)]: a negative [start] counts from the end; the result runs
    to the end of [s]. *)
Definition slice (s : string) (start : Z) : string :=
  let len := Z.of_nat (String.length s) in
  let from := if start <? 0 then Z.max (len + start) 0 else Z.min start len in
  drop_chars (Z.to_nat from) s.

Definition decimal (n : nat) : string := NilEmpty.string_of_uint (Nat.to_uint n).

(** A text written with an apostrophe wherever it has a double quote. *)
Fixpoint dq (s : string) : string :=
  match s with
  | EmptyString => EmptyString
  | String c s' => String (if (c =? "'")%char then "034"%char else c) (dq s')
  end.

End JS.

(* ===================================================================== *)
(** ** [JSON.parse] *)
(* ===================================================================== *)

(** The runtime's parser, as one left-to-right pass over the text: a scanner
    state (inside a string, a number, a literal word) and a stack of the
    arrays and objects still open. The pass stops at the first character that
    cannot continue a JSON text and throws a [SyntaxError] naming it. *)
Module JSON.
Import JS.

Inductive token :=
| TLBrace | TRBrace | TLBracket | TRBracket | TColon | TComma
| TValue (v : Value).

(** Where the scanner stands inside a number: an optional minus sign, then
    a lone zero or a digit string that does not start with zero, then
    optionally a dot with digits, then optionally an exponent ([e] or [E], an
    optional sign, digits). *)
Inductive num_state :=
| NMinus | NZero | NInt | NDot | NFrac | NExp | NExpSign | NExpInt.

Inductive scan_state :=
| SStart
| SString (acc : jsstring)                    (* code units so far, reversed *)
| SEscape (acc : jsstring)                    (* just after a backslash *)
| SUnicode (acc : jsstring) (hex : list N)    (* inside [\uXXXX] *)
| SNumber (st : num_state) (acc : list ascii) (* literal so far, reversed *)
| SWord (rest : list ascii) (v : Value).      (* rest of true, false, null *)

Inductive frame :=
| FArray (elements : list Value)                              (* reversed *)
| FObject (members : list (jsstring * Value)) (key : option jsstring).

Inductive mode :=
| PValue         (* a value must come *)
| PArrayStart    (* after [: a value or ] *)
| PObjectStart   (* after {: a key or } *)
| PKey           (* after , in an object: a key *)
| PColon         (* after a key: : *)
| PAfter         (* after a value inside an array or object: , or the close *)
| PDone (v : Value).  (* the top-level value is complete *)

Record state := mkState { scan : scan_state; expect : mode; stack : list frame }.

Definition is_digit (c : ascii) : bool :=
  let n := N_of_ascii c in ((48 <=? n) && (n <=? 57))%N.

Definition is_whitespace (c : ascii) : bool :=
  let n := N_of_ascii c in
  ((n =? 32) || (n =? 9) || (n =? 10) || (n =? 13))%N.

Definition hex_value (c : ascii) : option N :=
  let n := N_of_ascii c in
  if ((48 <=? n) && (n <=? 57))%N then Some (n - 48)%N
  else if ((65 <=? n) && (n <=? 70))%N then Some (n - 55)%N
  else if ((97 <=? n) && (n <=? 102))%N then Some (n - 87)%N
  else None.

(** The code unit a one-letter escape stands for. *)
Definition escape_unit (c : ascii) : option N :=
  match c with
  | "034"%char => Some 34%N
  | "\"%char => Some 92%N
  | "/"%char => Some 47%N
  | "b"%char => Some 8%N
  | "f"%char => Some 12%N
  | "n"%char => Some 10%N
  | "r"%char => Some 13%N
  | "t"%char => Some 9%N
  | _ => None
  end.

Definition num_accepting (st : num_state) : bool :=
  match st with NZero | NInt | NFrac | NExpInt => true | _ => false end.

Definition num_step (st : num_state) (c : ascii) : option num_state :=
  match st with
  | NMinus => if (c =? "0")%char then Some NZero
              else if is_digit c then Some NInt else None
  | NZero => if (c =? ".")%char then Some NDot
             else if (c =? "e")%char || (c =? "E")%char then Some NExp else None
  | NInt => if is_digit c then Some NInt
            else if (c =? ".")%char then Some NDot
            else if (c =? "e")%char || (c =? "E")%char then Some NExp else None
  | NDot => if is_digit c then Some NFrac else None
  | NFrac => if is_digit c then Some NFrac
             else if (c =? "e")%char || (c =? "E")%char then Some NExp else None
  | NExp => if (c =? "+")%char || (c =? "-")%char then Some NExpSign
            else if is_digit c then Some NExpInt else None
  | NExpSign => if is_digit c then Some NExpInt else None
  | NExpInt => if is_digit c then Some NExpInt else None
  end.

(** A complete value [v] arrives: it becomes the top-level value, the next
    element of the open array, or the value of the pending key. *)
Definition push_value (v : Value) (st : list frame) : option (mode * list frame) :=
  match st with
  | [] => Some (PDone v, [])
  | FArray es :: st' => Some (PAfter, FArray (v :: es) :: st')
  | FObject ms (Some k) :: st' => Some (PAfter, FObject ((k, v) :: ms) None :: st')
  | FObject _ None :: _ => None
  end.

(** One token against the grammar. [None]: the token cannot come here. *)
Definition feed (m : mode) (st : list frame) (t : token) : option (mode * list frame) :=
  match m, t with
  | (PValue | PArrayStart), TLBracket => Some (PArrayStart, FArray [] :: st)
  | (PValue | PArrayStart), TLBrace => Some (PObjectStart, FObject [] None :: st)
  | PArrayStart, TRBracket =>
      match st with
      | FArray es :: st' => push_value (JArray (rev es)) st'
      | _ => None
      end
  | (PValue | PArrayStart), TValue v => push_value v st
  | (PObjectStart | PKey), TValue (JString k) =>
      match st with
      | FObject ms None :: st' => Some (PColon, FObject ms (Some k) :: st')
      | _ => None
      end
  | PObjectStart, TRBrace =>
      match st with
      | FObject ms None :: st' => push_value (JObject (rev ms)) st'
      | _ => None
      end
  | PColon, TColon => Some (PValue, st)
  | PAfter, TComma =>
      match st with
      | FArray _ :: _ => Some (PValue, st)
      | FObject _ None :: _ => Some (PKey, st)
      | _ => None
      end
  | PAfter, TRBracket =>
      match st with
      | FArray es :: st' => push_value (JArray (rev es)) st'
      | _ => None
      end
  | PAfter, TRBrace =>
      match st with
      | FObject ms None :: st' => push_value (JObject (rev ms)) st'
      | _ => None
      end
  | _, _ => None
  end.

Definition emit (s : scan_state) (m : mode) (st : list frame) (t : token) : option state :=
  match feed m st t with
  | Some (m', st') => Some (mkState s m' st')
  | None => None
  end.

(** A character met outside any string, number or word. *)
Definition step_start (m : mode) (st : list frame) (c : ascii) : option state :=
  if is_whitespace c then Some (mkState SStart m st)
  else match c with
  | "{"%char => emit SStart m st TLBrace
  | "}"%char => emit SStart m st TRBrace
  | "["%char => emit SStart m st TLBracket
  | "]"%char => emit SStart m st TRBracket
  | ":"%char => emit SStart m st TColon
  | ","%char => emit SStart m st TComma
  | "034"%char => Some (mkState (SString []) m st)
  | "-"%char => Some (mkState (SNumber NMinus [c]) m st)
  | "0"%char => Some (mkState (SNumber NZero [c]) m st)
  | "t"%char => Some (mkState (SWord (list_ascii_of_string "rue") (JBool true)) m st)
  | "f"%char => Some (mkState (SWord (list_ascii_of_string "alse") (JBool false)) m st)
  | "n"%char => Some (mkState (SWord (list_ascii_of_string "ull") JNull) m st)
  | _ => if is_digit c then Some (mkState (SNumber NInt [c]) m st) else None
  end.

(** A value may only start where the grammar expects one: the scanner does
    not enter a string, number or word elsewhere. *)
Definition value_may_start (m : mode) : bool :=
  match m with
  | PValue | PArrayStart => true
  | _ => false
  end.

Definition string_may_start (m : mode) : bool :=
  match m with
  | PValue | PArrayStart | PObjectStart | PKey => true
  | _ => false
  end.

Definition step (s : state) (c : ascii) : option state :=
  let m := expect s in
  let st := stack s in
  match scan s with
  | SStart =>
      match step_start m st c with
      | Some s' =>
          match scan s' with
          | SString _ => if string_may_start m then Some s' else None
          | SNumber _ _ | SWord _ _ => if value_may_start m then Some s' else None
          | _ => Some s'
          end
      | None => None
      end
  | SString acc =>
      if (c =? "034")%char then emit SStart m st (TValue (JString (rev acc)))
      else if (c =? "\")%char then Some (mkState (SEscape acc) m st)
      else if (N_of_ascii c <? 32)%N then None
      else Some (mkState (SString (N_of_ascii c :: acc)) m st)
  | SEscape acc =>
      if (c =? "u")%char then Some (mkState (SUnicode acc []) m st)
      else match escape_unit c with
           | Some u => Some (mkState (SString (u :: acc)) m st)
           | None => None
           end
  | SUnicode acc hex =>
      match hex_value c with
      | Some h =>
          match hex with
          | [h2; h1; h0] =>
              Some (mkState (SString ((((h0 * 16 + h1) * 16 + h2) * 16 + h)%N :: acc)) m st)
          | _ => Some (mkState (SUnicode acc (h :: hex)) m st)
          end
      | None => None
      end
  | SNumber ns acc =>
      match num_step ns c with
      | Some ns' => Some (mkState (SNumber ns' (c :: acc)) m st)
      | None =>
          if num_accepting ns then
            match feed m st (TValue (JNumber (string_of_list_ascii (rev acc)))) with
            | Some (m', st') =>
                match step_start m' st' c with
                | Some s' =>
                    match scan s' with
                    | SStart => Some s'
                    | _ => None
                    end
                | None => None
                end
            | None => None
            end
          else None
      end
  | SWord rest v =>
      match rest with
      | [] => None
      | [r] => if (c =? r)%char then emit SStart m st (TValue v) else None
      | r :: rest' => if (c =? r)%char then Some (mkState (SWord rest' v) m st) else None
      end
  end.

(** The end of the text: an unfinished number is completed, and the text
    must have produced exactly one value. *)
Definition finish (s : state) : option Value :=
  match scan s with
  | SStart =>
      match expect s with
      | PDone v => Some v
      | _ => None
      end
  | SNumber ns acc =>
      if num_accepting ns then
        match feed (expect s) (stack s) (TValue (JNumber (string_of_list_ascii (rev acc)))) with
        | Some (PDone v, _) => Some v
        | _ => None
        end
      else None
  | _ => None
  end.

(** The errors [JSON.parse] throws. The texts follow the runtime's wording
    for an unexpected character and for a text that ends too early; the
    handler stores the text and never reads it. *)
Definition unexpected_token (pos : nat) (c : ascii) : Error :=
  mkError "SyntaxError"
    ("Unexpected token " +:+ String c (" in JSON at position " +:+ decimal pos)).

Definition unexpected_end : Error :=
  mkError "SyntaxError" "Unexpected end of JSON input".

Fixpoint run (s : state) (pos : nat) (cs : list ascii) : Error + Value :=
  match cs with
  | [] =>
      match finish s with
      | Some v => inr v
      | None => inl unexpected_end
      end
  | c :: cs' =>
      match step s c with
      | Some s' => run s' (S pos) cs'
      | None => inl (unexpected_token pos c)
      end
  end.

(** The state after the characters [cs], when none of them is refused. *)
Fixpoint steps (s : state) (cs : list ascii) : option state :=
  match cs with
  | [] => Some s
  | c :: cs' =>
      match step s c with
      | Some s' => steps s' cs'
      | None => None
      end
  end.

(** A character that stands for itself inside a string literal. *)
Definition plain (c : ascii) : bool :=
  negb (c =? "034")%char && negb (c =? "\")%char && negb (N_of_ascii c <? 32)%N.

(** [JSON.parse(text)]: [inr v] when it returns [v], [inl e] when it throws
    [e]. *)
Definition parse (text : string) : Error + Value :=
  run (mkState SStart PValue []) O (list_ascii_of_string text).

End JSON.

(* ===================================================================== *)
(** ** The runtime the handler runs in *)
(* ===================================================================== *)

Module Runtime.
Import JS.

(** [Date.prototype.toISOString] of an instant given in milliseconds since
    the epoch: the proleptic Gregorian date in UTC, [YYYY-MM-DDTHH:mm:ss.sssZ],
    with a signed six-digit year outside 0..9999. *)
Fixpoint zeros (n : nat) : string :=
  match n with
  | O => EmptyString
  | S n' => "0" +:+ zeros n'
  end.

Definition pad_left (width : nat) (s : string) : string :=
  zeros (width - String.length s) +:+ s.

Definition digits (width : nat) (n : Z) : string :=
  pad_left width (decimal (Z.to_nat n)).

Definition civil_from_days (days : Z) : Z * Z * Z :=
  let z := days + 719468 in
  let era := z / 146097 in
  let doe := z - era * 146097 in
  let yoe := (doe - doe / 1460 + doe / 36524 - doe / 146096) / 365 in
  let doy := doe - (365 * yoe + yoe / 4 - yoe / 100) in
  let mp := (5 * doy + 2) / 153 in
  let d := doy - (153 * mp + 2) / 5 + 1 in
  let m := if mp <? 10 then mp + 3 else mp - 9 in
  let y := yoe + era * 400 + (if m <=? 2 then 1 else 0) in
  (y, m, d).

Definition toISOString (t : Z) : string :=
  let day := t / 86400000 in
  let ms := t mod 86400000 in
  let '(y, m, d) := civil_from_days day in
  let year :=
    if (0 <=? y) && (y <=? 9999) then digits 4 y
    else (if y <? 0 then "-" else "+") +:+ digits 6 (Z.abs y) in
  year +:+ "-" +:+ digits 2 m +:+ "-" +:+ digits 2 d +:+ "T"
    +:+ digits 2 (ms / 3600000) +:+ ":" +:+ digits 2 (ms / 60000 mod 60) +:+ ":"
    +:+ digits 2 (ms / 1000 mod 60) +:+ "." +:+ digits 3 (ms mod 1000) +:+ "Z".

(** What a call of [console.log] or [console.error] was given. *)
Inductive Level := Log | Err.

Inductive Arg (Event Data : Type) :=
| Text (s : string)
| Json (e : Event)          (* [JSON.stringify(event, null, 2)], kept as the event it renders *)
| Parsed (v : Value)
| Object (d : Data)
| Thrown (e : Error).
Arguments Text {Event Data} s.
Arguments Json {Event Data} e.
Arguments Parsed {Event Data} v.
Arguments Object {Event Data} d.
Arguments Thrown {Event Data} e.

(** The world outside the handler: the wall clock (the handler cannot tell
    what the next reading will be, so every reading comes from [clock]), the
    console, and the timers it has waited for. *)
Record World (Event Data : Type) := mkWorld {
  clock : nat -> Z;
  reads : nat;
  console : list (Level * list (Arg Event Data));
  waited : list Z
}.
Arguments mkWorld {Event Data} clock reads console waited.
Arguments clock {Event Data} w n.
Arguments reads {Event Data} w.
Arguments console {Event Data} w.
Arguments waited {Event Data} w.

(** How an evaluation ends: with a value, or with a thrown error. *)
Inductive Completion (A : Type) :=
| Normal (a : A)
| Throw (e : Error).
Arguments Normal {A} a.
Arguments Throw {A} e.

Section Monad.
Context {Event Data : Type}.

Definition M (A : Type) : Type :=
  World Event Data -> Completion A * World Event Data.

Definition ret {A} (a : A) : M A := fun w => (Normal a, w).

Definition bind {A B} (m : M A) (k : A -> M B) : M B :=
  fun w =>
    match m w with
    | (Normal a, w') => k a w'
    | (Throw e, w') => (Throw e, w')
    end.

Definition throw {A} (e : Error) : M A := fun w => (Throw e, w).

(** [try { m } catch (error) { h error }]. *)
Definition try_catch {A} (m : M A) (h : Error -> M A) : M A :=
  fun w =>
    match m w with
    | (Normal a, w') => (Normal a, w')
    | (Throw e, w') => h e w'
    end.

Definition console_log (args : list (Arg Event Data)) : M unit :=
  fun w => (Normal tt, mkWorld (clock w) (reads w) (console w ++ [(Log, args)]) (waited w)).

Definition console_error (args : list (Arg Event Data)) : M unit :=
  fun w => (Normal tt, mkWorld (clock w) (reads w) (console w ++ [(Err, args)]) (waited w)).

(** [Date.now()]. *)
Definition Date_now : M Z :=
  fun w => (Normal (clock w (reads w)), mkWorld (clock w) (S (reads w)) (console w) (waited w)).

(** [await new Promise(resolve => setTimeout(resolve, ms))]. *)
Definition await_timeout (ms : Z) : M unit :=
  fun w => (Normal tt, mkWorld (clock w) (reads w) (console w) (waited w ++ [ms])).

(** [JSON.parse(text)] inside the handler: a [SyntaxError] is thrown. *)
Definition JSON_parse (text : string) : M Value :=
  match JSON.parse text with
  | inr v => ret v
  | inl e => throw e
  end.

(** [for (const x of xs) body]: [s] is what the body updates. *)
Fixpoint for_of {A S} (xs : list A) (body : S -> A -> M S) (s : S) : M S :=
  match xs with
  | [] => ret s
  | x :: xs' => bind (body s x) (for_of xs' body)
  end.
End Monad.

Declare Scope js_scope.
Delimit Scope js_scope with js.
Notation "'let*' x := m 'in' k" := (bind m (fun x => k))
  (at level 10, x name, m at level 100, k at level 200) : js_scope.
Notation "m ;; k" := (bind m (fun _ => k))
  (at level 100, k at level 200, right associativity) : js_scope.

End Runtime.

(* ===================================================================== *)
(** ** [lambda/sample-lambda-2/index.js] *)
(* ===================================================================== *)

Module Lambda2.
Import JS Runtime.

(** One message attribute of a delivery record. *)
Record MessageAttribute := mkAttribute {
  stringValue : option string;
  dataType : string
}.

(** A delivery record, with the fields the handler reads.
    [messageAttributes] is [None] when the record has no such property. *)
Record SQSRecord := mkRecord {
  messageId : string;
  receiptHandle : string;
  body : string;
  messageAttributes : option (gmap string MessageAttribute)
}.

Record SQSEvent := mkEvent { Records : list SQSRecord }.

Record Enhanced := mkEnhanced {
  processingDelay : Z;
  specialField : string;
  timestamp : Z
}.

Record ProcessedData := mkProcessedData {
  pd_messageId : string;
  pd_receiptHandle : string;
  processingTime : string;
  source : string;
  requestId : string;
  processedBy : string;
  data : Value;
  enhanced : Enhanced
}.

(** An entry of the [results] array: the [processedData] object pushed at the
    end of the [try] block, or the object pushed in the [catch] block. *)
Inductive Result :=
| Processed (processedData : ProcessedData)
| Failed (item : string) (text : string).   (* { itemIdentifier, error } *)

(** [result.error] and [failure.itemIdentifier]: [None] is [undefined]. *)
Definition get_error (result : Result) : option string :=
  match result with
  | Processed _ => None
  | Failed _ text => Some text
  end.

Definition get_itemIdentifier (result : Result) : option string :=
  match result with
  | Processed _ => None
  | Failed item _ => Some item
  end.

Record BatchItemFailure := mkBatchItemFailure { itemIdentifier : option string }.

(** What the handler returns: [{ batchItemFailures }] or
    [{ statusCode, processedCount, results }]. *)
Inductive Response :=
| Failures (batchItemFailures : list BatchItemFailure)
| Success (statusCode : Z) (processedCount : nat) (results : list Result).

Abbreviation Console := (Arg SQSEvent ProcessedData).
Abbreviation Handler := (@M SQSEvent ProcessedData).

Open Scope js_scope.

(** [record.messageAttributes?.<key>?.stringValue]. *)
Definition attribute_string (record : SQSRecord) (key : string) : option string :=
  match messageAttributes record with
  | None => None
  | Some attributes =>
      match attributes !! key with
      | None => None
      | Some attribute => stringValue attribute
      end
  end.

(** The [try] block of one iteration, up to the object it builds. *)
Definition try_block (record : SQSRecord) : Handler ProcessedData :=
  console_log [Text ("Processing message: " +:+ messageId record)] ;;
  let* messageBody := JSON_parse (body record) in
  console_log [Text "Message body:"; Parsed messageBody] ;;
  await_timeout 100 ;;
  let* now := Date_now in
  let* stamp := Date_now in
  let processedData := {|
    pd_messageId := messageId record;
    pd_receiptHandle := receiptHandle record;
    processingTime := toISOString now;
    source := or_else (attribute_string record "Source") "unknown";
    requestId := or_else (attribute_string record "RequestId") "unknown";
    processedBy := "sample-lambda-2";
    data := messageBody;
    enhanced := {|
      processingDelay := 100;
      specialField := "enhanced-" +:+ slice (messageId record) (-6);
      timestamp := stamp
    |}
  |} in
  console_log [Text "Enhanced processing completed:"; Object processedData] ;;
  ret processedData.

(** The body of the [for] loop: [results] is the array both branches push
    to. *)
Definition iteration (results : list Result) (record : SQSRecord) : Handler (list Result) :=
  try_catch
    (let* processedData := try_block record in
     ret (results ++ [Processed processedData]))
    (fun error =>
       console_error [Text ("Error processing message " +:+ messageId record +:+ ":"); Thrown error] ;;
       ret (results ++ [Failed (messageId record) (message error)])).

(** The loop of lines 5 to 46. *)
Definition process_records (records : list SQSRecord) : Handler (list Result) :=
  for_of records iteration [].

Definition handler (event : SQSEvent) : Handler Response :=
  console_log [Text "Event:"; Json event] ;;
  let* results := process_records (Records event) in
  console_log [Text ("Processed " +:+ decimal (length results) +:+ " messages from sample-lambda-2")] ;;
  let failures := filter (fun result => truthy (get_error result) = true) results in
  if (0 <? length failures)%nat then
    ret (Failures (map (fun failure => mkBatchItemFailure (get_itemIdentifier failure)) failures))
  else
    ret (Success 200 (length results) results).

(** The identifiers a returned value reports as failed to the event source:
    the [itemIdentifier]s of [batchItemFailures], none when the value has no
    such field. *)
Definition reported_failures (response : Response) : list (option string) :=
  match response with
  | Failures items => map itemIdentifier items
  | Success _ _ _ => []
  end.

Close Scope js_scope.

End Lambda2.

(* ===================================================================== *)
(** ** [lib/cdk-sqs-lambda-pattern-stack.ts]: the construct properties *)
(* ===================================================================== *)

Module Cdk.

(** [cdk.Duration], as the number of seconds it stands for. *)
Record Duration := mkDuration { toSeconds : Z }.

Definition Duration_seconds (amount : Z) : Duration := mkDuration amount.
Definition Duration_days (amount : Z) : Duration := mkDuration (amount * 86400).

(** [sqs.Queue] with the properties the stack sets; a property the stack
    leaves out is [None]. *)
Inductive Queue :=
| mkQueue (queueName : string)
          (visibilityTimeout : option Duration)
          (retentionPeriod : option Duration)
          (deadLetterQueue : option DeadLetterQueue)
with DeadLetterQueue :=
| mkDeadLetterQueue (queue : Queue) (maxReceiveCount : Z).

Definition queueName (q : Queue) : string :=
  match q with mkQueue n _ _ _ => n end.
Definition visibilityTimeout (q : Queue) : option Duration :=
  match q with mkQueue _ v _ _ => v end.
Definition retentionPeriod (q : Queue) : option Duration :=
  match q with mkQueue _ _ r _ => r end.
Definition deadLetterQueue (q : Queue) : option DeadLetterQueue :=
  match q with mkQueue _ _ _ d => d end.
Definition queue (d : DeadLetterQueue) : Queue :=
  match d with mkDeadLetterQueue q _ => q end.
Definition maxReceiveCount (d : DeadLetterQueue) : Z :=
  match d with mkDeadLetterQueue _ n => n end.

(** A value known at deployment only. *)
Inductive Token :=
| queueUrl (q : Queue).

(** [lambda.Function]. *)
Record Function := mkFunction {
  runtime : string;
  handler : string;
  code : string;                       (* the asset directory *)
  timeout : option Duration;
  environment : list (string * Token)
}.

(** [eventsources.SqsEventSource]. *)
Record SqsEventSource := mkSqsEventSource {
  source_queue : Queue;
  batchSize : Z;
  maxBatchingWindow : Duration;
  reportBatchItemFailures : bool
}.

(** One entry of [integrationResponses]. *)
Record IntegrationResponse := mkIntegrationResponse {
  statusCode : string;
  selectionPattern : option string;
  responseTemplates : list (string * string)
}.

(** [apigateway.AwsIntegration]; [path] is the account id followed by the
    name of [target]. *)
Record AwsIntegration := mkAwsIntegration {
  service : string;
  target : Queue;
  integrationHttpMethod : string;
  requestParameters : list (string * string);
  requestTemplates : list (string * string);
  integrationResponses : list IntegrationResponse
}.

Record MethodResponse := mkMethodResponse {
  method_statusCode : string;
  responseModels : list (string * string)
}.

Record Method := mkMethod {
  httpMethod : string;
  integration : AwsIntegration;
  methodResponses : list MethodResponse
}.

(** A resource of the REST API with the resources added below it. *)
Inductive Resource :=
| mkResource (pathPart : string) (methods : list Method) (children : list Resource).

Definition pathPart (r : Resource) : string :=
  match r with mkResource p _ _ => p end.
Definition methods (r : Resource) : list Method :=
  match r with mkResource _ m _ => m end.
Definition children (r : Resource) : list Resource :=
  match r with mkResource _ _ c => c end.

End Cdk.

(** The declarations of [BackendStack]'s constructor, in its order. *)
Module BackendStack.
Import JS Cdk.

Definition dlq1 : Queue :=
  mkQueue "sample-lambda-1-dlq" None (Some (Duration_days 14)) None.

Definition dlq2 : Queue :=
  mkQueue "sample-lambda-2-dlq" None (Some (Duration_days 14)) None.

Definition queue1 : Queue :=
  mkQueue "sample-lambda-1-queue" (Some (Duration_seconds 60)) None
    (Some (mkDeadLetterQueue dlq1 3)).

Definition queue2 : Queue :=
  mkQueue "sample-lambda-2-queue" (Some (Duration_seconds 60)) None
    (Some (mkDeadLetterQueue dlq2 3)).

Definition lambdaFunction1 : Function := {|
  runtime := "nodejs18.x";
  handler := "index.handler";
  code := "lambda/sample-lambda-1";
  timeout := Some (Duration_seconds 30);
  environment := [("QUEUE_URL", queueUrl queue1)]
|}.

Definition lambdaFunction2 : Function := {|
  runtime := "nodejs18.x";
  handler := "index.handler";
  code := "lambda/sample-lambda-2";
  timeout := Some (Duration_seconds 30);
  environment := [("QUEUE_URL", queueUrl queue2)]
|}.

(** The two [addEventSource] calls. *)
Definition eventSources : list (Function * SqsEventSource) :=
  [ (lambdaFunction1, mkSqsEventSource queue1 10 (Duration_seconds 5) true);
    (lambdaFunction2, mkSqsEventSource queue2 10 (Duration_seconds 5) true) ].

Definition requestTemplate : string :=
  "Action=SendMessage&MessageBody=$util.urlEncode($input.body)&MessageAttributes.1.Name=Source&MessageAttributes.1.Value.StringValue=API-Gateway&MessageAttributes.1.Value.DataType=String&MessageAttributes.2.Name=RequestId&MessageAttributes.2.Value.StringValue=$context.requestId&MessageAttributes.2.Value.DataType=String".

(** [JSON.stringify({ message: 'Message sent to queue successfully',
    requestId: '$context.requestId' })]: the members in order, no
    spaces, double quotes around keys and texts. *)
Definition responseTemplate : string :=
  dq "{'message':'Message sent to queue successfully','requestId':'$context.requestId'}".

Definition sqsIntegration1 : AwsIntegration := {|
  service := "sqs";
  target := queue1;
  integrationHttpMethod := "POST";
  requestParameters :=
    [("integration.request.header.Content-Type", "'application/x-www-form-urlencoded'")];
  requestTemplates := [("application/json", requestTemplate)];
  integrationResponses :=
    [ mkIntegrationResponse "200" None [("application/json", responseTemplate)] ]
|}.

Definition sqsIntegration2 : AwsIntegration := {|
  service := "sqs";
  target := queue2;
  integrationHttpMethod := "POST";
  requestParameters :=
    [("integration.request.header.Content-Type", "'application/x-www-form-urlencoded'")];
  requestTemplates := [("application/json", requestTemplate)];
  integrationResponses :=
    [ mkIntegrationResponse "200" None [("application/json", responseTemplate)] ]
|}.

(** The two [addMethod] calls. *)
Definition lambda1Post : Method :=
  mkMethod "POST" sqsIntegration1 [ mkMethodResponse "200" [("application/json", "Empty")] ].

Definition lambda2Post : Method :=
  mkMethod "POST" sqsIntegration2 [ mkMethodResponse "200" [("application/json", "Empty")] ].

Definition lambda1Resource : Resource := mkResource "sample-lambda-1" [lambda1Post] [].

Definition lambda2Resource : Resource := mkResource "sample-lambda-2" [lambda2Post] [].

Definition api : Resource := mkResource "api" [] [lambda1Resource; lambda2Resource].

(** [this.apiGateway.root]. *)
Definition root : Resource := mkResource EmptyString [] [api].

(** Every [sqs.Queue] of the stack; the primary queues are those an event
    source reads, the dead-letter queues those a [deadLetterQueue] property
    names. *)
Definition queues : list Queue := [dlq1; dlq2; queue1; queue2].

Definition primaryQueues : list Queue := map (fun p => source_queue (snd p)) eventSources.

Definition deadLetterQueues : list Queue :=
  omap (fun q => match deadLetterQueue q with
                 | Some d => Some (queue d)
                 | None => None
                 end) queues.


End BackendStack.

(* ===================================================================== *)
(** ** The ingestion endpoint: what the declared integration does with a
       request *)
(* ===================================================================== *)

Module Gateway.
Import JS Cdk.

(** An inbound request as the mapping template sees it: [$input.body] and
    [$context.requestId], with the method, path and content type that
    select the method and the template. *)
Record Request := mkRequest {
  method : string;
  path : list string;
  contentType : string;
  input_body : string;
  context_requestId : string
}.

Definition hex_digit (n : N) : ascii :=
  ascii_of_N (if (n <? 10)%N then 48 + n else 55 + n).

(** [$util.urlEncode]: letters, digits and [. - * _] stay, a space becomes
    [+], any other byte becomes [%] and two upper-case hexadecimal digits. *)
Definition url_safe (c : ascii) : bool :=
  let n := N_of_ascii c in
  ((48 <=? n) && (n <=? 57) || (65 <=? n) && (n <=? 90) || (97 <=? n) && (n <=? 122)
   || (n =? 46) || (n =? 45) || (n =? 42) || (n =? 95))%N.

Fixpoint urlEncode (s : string) : string :=
  match s with
  | EmptyString => EmptyString
  | String c s' =>
      if url_safe c then String c (urlEncode s')
      else if (c =? " ")%char then String "+" (urlEncode s')
      else
        let n := N_of_ascii c in
        String "%" (String (hex_digit (n / 16)) (String (hex_digit (n mod 16)) (urlEncode s')))
  end.

(** The template language, as far as the two templates use it: the
    references [$util.urlEncode($input.body)] and [$context.requestId] are
    replaced, every other character is copied. [skip] counts the characters
    of a reference still to pass over. *)
Definition ref_body : string := "$util.urlEncode($input.body)".
Definition ref_requestId : string := "$context.requestId".

Fixpoint render_from (skip : nat) (template : string) (request : Request) : string :=
  match template with
  | EmptyString => EmptyString
  | String c rest =>
      match skip with
      | S k => render_from k rest request
      | O =>
          if String.prefix ref_body template then
            urlEncode (input_body request)
              +:+ render_from (String.length ref_body - 1) rest request
          else if String.prefix ref_requestId template then
            context_requestId request
              +:+ render_from (String.length ref_requestId - 1) rest request
          else String c (render_from O rest request)
      end
  end.

Definition render (template : string) (request : Request) : string :=
  render_from O template request.

Fixpoint lookup_text (key : string) (l : list (string * string)) : option string :=
  match l with
  | [] => None
  | (k, v) :: l' => if String.eqb k key then Some v else lookup_text key l'
  end.

(** The body sent to the queue service: the template registered for the
    request's content type, rendered. A request with another content type
    is not mapped by any template of the stack. *)
Definition integration_request (i : AwsIntegration) (request : Request) : option string :=
  match lookup_text (contentType request) (requestTemplates i) with
  | Some template => Some (render template request)
  | None => None
  end.

(** *** The queue service reading the form it is sent *)

Definition hex_value (c : ascii) : option N := JSON.hex_value c.

(** Decoding of one [application/x-www-form-urlencoded] component. *)
Fixpoint urlDecode (s : string) : option string :=
  match s with
  | EmptyString => Some EmptyString
  | String c s' =>
      if (c =? "+")%char then
        match urlDecode s' with
        | Some r => Some (String " " r)
        | None => None
        end
      else if (c =? "%")%char then
        match s' with
        | String h1 (String h0 s'') =>
            match hex_value h1, hex_value h0, urlDecode s'' with
            | Some a, Some b, Some r => Some (String (ascii_of_N (a * 16 + b)) r)
            | _, _, _ => None
            end
        | _ => None
        end
      else
        match urlDecode s' with
        | Some r => Some (String c r)
        | None => None
        end
  end.

(** The text cut at every [sep]. *)
Fixpoint split_on (sep : ascii) (s : string) : list string :=
  match s with
  | EmptyString => [EmptyString]
  | String c s' =>
      if (c =? sep)%char then EmptyString :: split_on sep s'
      else match split_on sep s' with
           | piece :: pieces => String c piece :: pieces
           | [] => [String c EmptyString]
           end
  end.

(** [key=value], cut at the first [=]. *)
Fixpoint split_pair (s : string) : string * string :=
  match s with
  | EmptyString => (EmptyString, EmptyString)
  | String c s' =>
      if (c =? "=")%char then (EmptyString, s')
      else let '(k, v) := split_pair s' in (String c k, v)
  end.

Definition decode_pair (s : string) : option (string * string) :=
  let '(k, v) := split_pair s in
  match urlDecode k, urlDecode v with
  | Some k', Some v' => Some (k', v')
  | _, _ => None
  end.

Fixpoint decode_pairs (l : list string) : option (list (string * string)) :=
  match l with
  | [] => Some []
  | s :: l' =>
      match decode_pair s, decode_pairs l' with
      | Some p, Some ps => Some (p :: ps)
      | _, _ => None
      end
  end.

Definition parse_form (form : string) : option (list (string * string)) :=
  decode_pairs (split_on "&" form).

Record MessageAttributeValue := mkMessageAttributeValue {
  DataType : string;
  StringValue : option string
}.

(** A [SendMessage] action as the queue service reads it. *)
Record SendMessage := mkSendMessage {
  MessageBody : string;
  MessageAttributes : list (string * MessageAttributeValue)
}.

(** The attributes [MessageAttributes.n.*], for [n] from [n] upwards while
    their [Name] is given. *)
Fixpoint attributes_from (fuel n : nat) (params : list (string * string))
  : list (string * MessageAttributeValue) :=
  match fuel with
  | O => []
  | S fuel' =>
      let prefix := "MessageAttributes." +:+ JS.decimal n in
      match lookup_text (prefix +:+ ".Name") params,
            lookup_text (prefix +:+ ".Value.DataType") params with
      | Some name, Some type =>
          (name, mkMessageAttributeValue type
                   (lookup_text (prefix +:+ ".Value.StringValue") params))
            :: attributes_from fuel' (S n) params
      | _, _ => []
      end
  end.

Definition read_action (form : string) : option SendMessage :=
  match parse_form form with
  | Some params =>
      match lookup_text "Action" params, lookup_text "MessageBody" params with
      | Some "SendMessage", Some body =>
          Some (mkSendMessage body (attributes_from (length params) 1 params))
      | _, _ => None
      end
  | None => None
  end.

(** *** Routing and the response *)

Fixpoint find_resource (r : Resource) (segments : list string) : option Resource :=
  match segments with
  | [] => Some r
  | segment :: segments' =>
      (fix among (rs : list Resource) : option Resource :=
         match rs with
         | [] => None
         | child :: rs' =>
             if String.eqb (pathPart child) segment
             then find_resource child segments'
             else among rs'
         end) (children r)
  end.

Definition find_method (root : Resource) (request : Request) : option Method :=
  match find_resource root (path request) with
  | Some r => find (fun m => String.eqb (httpMethod m) (method request)) (methods r)
  | None => None
  end.

(** The message the queue named by the integration is asked to store. *)
Definition enqueue_call (root : Resource) (request : Request) : option (Queue * SendMessage) :=
  match find_method root request with
  | Some m =>
      match integration_request (integration m) request with
      | Some form =>
          match read_action form with
          | Some action => Some (target (integration m), action)
          | None => None
          end
      | None => None
      end
  | None => None
  end.

Record HttpResponse := mkHttpResponse { status : string; response_body : string }.

(** The integration response for a backend status: the entry whose
    [selectionPattern] is that status, otherwise the entry without a
    pattern. *)
Definition select_response (backend_status : string) (i : AwsIntegration)
  : option IntegrationResponse :=
  match find (fun r => match selectionPattern r with
                       | Some p => String.eqb p backend_status
                       | None => false
                       end) (integrationResponses i) with
  | Some r => Some r
  | None => find (fun r => match selectionPattern r with
                           | Some _ => false
                           | None => true
                           end) (integrationResponses i)
  end.

(** What the caller receives once the queue service has answered
    [backend_status]; [backend_body] is the service's answer, which a
    response template may read as [$input.body]. *)
Definition respond (root : Resource) (request : Request)
    (backend_status backend_body : string) : option HttpResponse :=
  match find_method root request with
  | Some m =>
      match select_response backend_status (integration m) with
      | Some r =>
          if existsb (fun mr => String.eqb (method_statusCode mr) (statusCode r)) (methodResponses m)
          then
            match lookup_text "application/json" (responseTemplates r) with
            | Some template =>
                Some (mkHttpResponse (statusCode r)
                        (render template
                           (mkRequest (method request) (path request) (contentType request)
                              backend_body (context_requestId request))))
            | None => None
            end
          else None
      | None => None
      end
  | None => None
  end.

Fixpoint contains (c : ascii) (s : string) : bool :=
  match s with
  | EmptyString => false
  | String c' s' => (c' =? c)%char || contains c s'
  end.


(** The two attributes the template stamps. *)
Definition stamped (request : Request) : list (string * MessageAttributeValue) :=
  [ ("Source", mkMessageAttributeValue "String" (Some "API-Gateway"));
    ("RequestId", mkMessageAttributeValue "String" (Some (context_requestId request))) ].

(** The body the response template renders to. *)
Definition expected_response (request : Request) : string :=
  dq "{'message':'Message sent to queue successfully','requestId':'"
    +:+ context_requestId request +:+ dq "'}".

Definition example_request : Request :=
  mkRequest "POST" ["api"; "sample-lambda-2"] "application/json"
    (dq "{'message': 'Hello World & more=100%'}")
    "c6af9ac6-7b61-11e6-9a41-93e8deadbeef".

(** The characters of a request id: hexadecimal digits and hyphens. *)
Definition is_requestId_char (c : ascii) : bool :=
  let n := N_of_ascii c in
  ((48 <=? n) && (n <=? 57) || (65 <=? n) && (n <=? 70) || (97 <=? n) && (n <=? 102)
   || (n =? 45))%N.

Fixpoint is_requestId (s : string) : bool :=
  match s with
  | EmptyString => true
  | String c s' => is_requestId_char c && is_requestId s'
  end.

End Gateway.

(* ===================================================================== *)
(** ** The life of one queued message *)
(* ===================================================================== *)

Module QueueModel.
Import Cdk.

(** What the queue service applies where a declaration leaves a property
    out. *)
Record Defaults := mkDefaults {
  default_visibility : Z;
  default_retention : Z
}.

(** The settings of a primary queue and of its dead-letter queue, in
    seconds, read off the declarations. *)
Record Config := mkConfig {
  threshold : nat;
  visibility : Z;
  retention_primary : Z;
  retention_deadLetter : Z
}.

Definition seconds_or (d : option Duration) (default : Z) : Z :=
  match d with
  | Some t => toSeconds t
  | None => default
  end.

Definition effective_retention (defaults : Defaults) (q : Queue) : Z :=
  seconds_or (retentionPeriod q) (default_retention defaults).

Definition config_of (defaults : Defaults) (q : Queue) : option Config :=
  match deadLetterQueue q with
  | Some d =>
      Some {| threshold := Z.to_nat (maxReceiveCount d);
              visibility := seconds_or (visibilityTimeout q) (default_visibility defaults);
              retention_primary := effective_retention defaults q;
              retention_deadLetter := effective_retention defaults (queue d) |}
  | None => None
  end.

Inductive Place := Primary | DeadLetter | Deleted | Discarded.

Inductive Visibility :=
| Visible
| InFlight (until : Z).

Record Message := mkMessage {
  place : Place;
  visible : Visibility;
  delivered : nat;     (* deliveries to the primary consumer so far *)
  failed : nat;        (* deliveries that ended without acknowledgment *)
  sent : Z;
  now : Z
}.

Inductive Label :=
| Deliver            (* the queue hands the message to the primary consumer *)
| Acknowledge        (* the consumer did not report the message as failed *)
| ReportFailure      (* the consumer reported the message as failed *)
| VisibilityExpires  (* the visibility window ran out without acknowledgment *)
| Redrive            (* the queue moves the message to the dead-letter queue *)
| Expire             (* the queue discards the message for its age *)
| Tick (d : Z).      (* time passes *)



Definition enqueued (t : Z) : Message :=
  mkMessage Primary Visible O O t t.

Definition retention (c : Config) (p : Place) : option Z :=
  match p with
  | Primary => Some (retention_primary c)
  | DeadLetter => Some (retention_deadLetter c)
  | Deleted | Discarded => None
  end.

(** Older than the retention window of the queue it is in. *)
Definition expired (c : Config) (m : Message) : bool :=
  match retention c (place m) with
  | Some window => window <? now m - sent m
  | None => false
  end.

(** Modelled from the spec: the managed queue service (delivery,
    visibility window, redelivery, dead-letter relocation and retention) is
    not part of the repository; the stack only declares its settings. The
    steps follow the message invariants and the delivery contract of the
    specification, with the threshold and the windows of [Config]. *)
Definition step (c : Config) (l : Label) (m : Message) : option Message :=
  match l, place m, visible m with
  | Deliver, Primary, Visible =>
      if negb (expired c m) && (delivered m <? threshold c)%nat
      then Some (mkMessage Primary (InFlight (now m + visibility c))
                   (S (delivered m)) (failed m) (sent m) (now m))
      else None
  | Acknowledge, Primary, InFlight _ =>
      if expired c m then None
      else Some (mkMessage Deleted Visible (delivered m) (failed m) (sent m) (now m))
  | ReportFailure, Primary, InFlight _ =>
      Some (mkMessage Primary Visible (delivered m) (S (failed m)) (sent m) (now m))
  | VisibilityExpires, Primary, InFlight until =>
      if until <=? now m
      then Some (mkMessage Primary Visible (delivered m) (S (failed m)) (sent m) (now m))
      else None
  | Redrive, Primary, Visible =>
      if (threshold c <=? delivered m)%nat
      then Some (mkMessage DeadLetter Visible (delivered m) (failed m) (sent m) (now m))
      else None
  | Expire, (Primary | DeadLetter), v =>
      if expired c m
      then Some (mkMessage Discarded v (delivered m) (failed m) (sent m) (now m))
      else None
  | Tick d, p, v =>
      if 0 <? d
      then Some (mkMessage p v (delivered m) (failed m) (sent m) (now m + d))
      else None
  | _, _, _ => None
  end.


(** A run: the labels taken in order. *)
Fixpoint run (c : Config) (trace : list Label) (m : Message) : option Message :=
  match trace with
  | [] => Some m
  | l :: trace' =>
      match step c l m with
      | Some m' => run c trace' m'
      | None => None
      end
  end.



Definition example_defaults : Defaults := mkDefaults 30 345600.

(** A message delivered and reported as failed [n] times in a row, ten
    seconds passing before each delivery. *)
Fixpoint failing_run (n : nat) : list Label :=
  match n with
  | O => []
  | S n' => Tick 10 :: Deliver :: ReportFailure :: failing_run n'
  end.

End QueueModel.

(* ===================================================================== *)
(** ** Vocabulary of the statements, and the inputs the examples use *)
(* ===================================================================== *)

Module Batch.
Import JS Runtime Lambda2.

(** A record fails transformation when parsing its body throws: nothing
    else in the [try] block can throw on a delivery record. *)
Definition transformation_fails (record : SQSRecord) : bool :=
  match JSON.parse (body record) with
  | inl _ => true
  | inr _ => false
  end.

(** The entry of [results] that belongs to [record]. *)
Definition entry_of (record : SQSRecord) (result : Result) : Prop :=
  match JSON.parse (body record) with
  | inl error => result = Failed (messageId record) (message error)
  | inr value =>
      exists processedData,
        result = Processed processedData
        /\ pd_messageId processedData = messageId record
        /\ data processedData = value
  end.

Definition failed_records (records : list SQSRecord) : list SQSRecord :=
  filter (fun record => transformation_fails record = true) records.

Definition throws {A} (c : Completion A) : bool :=
  match c with
  | Throw _ => true
  | Normal _ => false
  end.

(** A world to run the examples in: a clock that starts on 2023-11-14 and
    advances by 101 ms per reading. *)
Definition world0 : World SQSEvent ProcessedData :=
  mkWorld (fun n => 1700000000000 + Z.of_nat n * 101) O [] [].

Definition hello : SQSRecord :=
  mkRecord "11111111-2222-3333-4444-555555abcdef" "receipt-1"
    (dq "{'message':'Hello World'}")
    (Some {[ "Source" := mkAttribute (Some "API-Gateway") "String" ]}).

Definition malformed : SQSRecord :=
  mkRecord "99999999-8888-7777-6666-555555fedcba" "receipt-2" "{oops" None.

Definition list_body : SQSRecord :=
  mkRecord "id-3" "receipt-3" "[1, 2.5e3, null]" None.

End Batch.

(* ===================================================================== *)
(** ** What a run of the handler leaves behind *)
(* ===================================================================== *)

Module Effects.
Import JS Runtime Lambda2 Batch.

Definition succeeded_records (records : list SQSRecord) : list SQSRecord :=
  filter (fun record => transformation_fails record = false) records.

(** The object the [try] block builds for [record], once its body has
    parsed to [value] and the clock has been read twice. *)
Definition processed_data (record : SQSRecord) (value : Value) (now stamp : Z)
  : ProcessedData :=
  {| pd_messageId := messageId record;
     pd_receiptHandle := receiptHandle record;
     processingTime := toISOString now;
     source := or_else (attribute_string record "Source") "unknown";
     requestId := or_else (attribute_string record "RequestId") "unknown";
     processedBy := "sample-lambda-2";
     data := value;
     enhanced := {| processingDelay := 100;
                    specialField := "enhanced-" +:+ slice (messageId record) (-6);
                    timestamp := stamp |} |}.

(** The entry of [results] that belongs to [record], field by field. *)
Definition built_from (record : SQSRecord) (result : Result) : Prop :=
  match JSON.parse (body record) with
  | inl error => result = Failed (messageId record) (message error)
  | inr value =>
      exists now stamp, result = Processed (processed_data record value now stamp)
  end.

Definition is_error_line (line : Level * list Console) : bool :=
  match fst line with
  | Err => true
  | Log => false
  end.

(** The calls of [console.error] among [lines]. *)
Definition error_lines (lines : list (Level * list Console)) : list (Level * list Console) :=
  filter (fun line => is_error_line line = true) lines.

(** The [processedData] objects of [results], in order. *)
Definition processed (results : list Result) : list ProcessedData :=
  omap (fun result => match result with
                      | Processed processedData => Some processedData
                      | Failed _ _ => None
                      end) results.

(** The value a normal completion carries. *)
Definition returned {A} (c : Completion A * World SQSEvent ProcessedData) : option A :=
  match fst c with
  | Normal a => Some a
  | Throw _ => None
  end.

(** The clock never runs backwards. *)
Definition monotone (clock : nat -> Z) : Prop :=
  forall i j, (i <= j)%nat -> clock i <= clock j.

Fixpoint total (l : list Z) : Z :=
  match l with
  | [] => 0
  | x :: l' => x + total l'
  end.

End Effects.

(* ===================================================================== *)
(** ** From the endpoint to the consumer *)
(* ===================================================================== *)

Module Ingestion.
Import JS Cdk Gateway Lambda2.



(** The delivery record a stored message reaches the consumer as: the body
    and the attributes as they were sent (the record names the attribute
    fields [stringValue] and [dataType]), with the id and the receipt handle
    the queue gives the delivery. *)
Definition delivered_record (action : SendMessage) (id receipt : string) : SQSRecord :=
  mkRecord id receipt (MessageBody action)
    (Some (list_to_map
             (map (fun entry =>
                     (fst entry,
                      mkAttribute (StringValue (snd entry)) (DataType (snd entry))))
                  (MessageAttributes action)))).


End Ingestion.

(* ===================================================================== *)
(** ** [FrontendStack]: the distribution *)
(* ===================================================================== *)

Module Frontend.
Import JS Cdk.

Inductive Origin :=
| S3BucketOrigin          (* [withOriginAccessControl(this.bucket)] *)
| RestApiOrigin (api : Resource).

Inductive ViewerProtocolPolicy := ALLOW_ALL | HTTPS_ONLY | REDIRECT_TO_HTTPS.

Inductive CachePolicy := CACHING_OPTIMIZED | CACHING_DISABLED.

(** A cache behaviour; [cachePolicy] is [None] where the stack sets none. *)
Record Behavior := mkBehavior {
  origin : Origin;
  viewerProtocolPolicy : ViewerProtocolPolicy;
  cachePolicy : option CachePolicy
}.

Record Distribution := mkDistribution {
  defaultBehavior : Behavior;
  additionalBehaviors : list (string * Behavior);
  defaultRootObject : string
}.

Definition apiBehavior : Behavior :=
  mkBehavior (RestApiOrigin BackendStack.root) REDIRECT_TO_HTTPS (Some CACHING_DISABLED).

Definition distribution : Distribution := {|
  defaultBehavior := mkBehavior S3BucketOrigin REDIRECT_TO_HTTPS None;
  additionalBehaviors := [ ("/api/*", apiBehavior) ];
  defaultRootObject := "index.html"
|}.

(** A path pattern against a path: [*] stands for any run of characters,
    the empty one included, [?] for exactly one character, any other
    character for itself. *)
Fixpoint matches (pattern : list ascii) : list ascii -> bool :=
  match pattern with
  | [] => fun path => match path with [] => true | _ :: _ => false end
  | p :: pattern' =>
      if (p =? "*")%char then
        fix star (path : list ascii) : bool :=
          matches pattern' path
          || match path with
             | [] => false
             | _ :: path' => star path'
             end
      else if (p =? "?")%char then
        fun path => match path with
                    | [] => false
                    | _ :: path' => matches pattern' path'
                    end
      else
        fun path => match path with
                    | [] => false
                    | c :: path' => (c =? p)%char && matches pattern' path'
                    end
  end.

Definition path_matches (pattern path : string) : bool :=
  matches (list_ascii_of_string pattern) (list_ascii_of_string path).

(** The behaviour that serves a path: the first additional behaviour whose
    pattern matches it, the default behaviour when none does. *)
Definition behavior_for (d : Distribution) (path : string) : Behavior :=
  match find (fun entry => path_matches (fst entry) path) (additionalBehaviors d) with
  | Some entry => snd entry
  | None => defaultBehavior d
  end.


End Frontend.

(* ===================================================================== *)
(** ** [web/index.html]: the test page *)
(* ===================================================================== *)

Module Page.
Import JS Runtime.

(** [JSON.stringify] of a string: the quotes, and inside them a backslash
    before a quote or a backslash, the short escapes for backspace, tab, line
    feed, form feed and carriage return, [\u00XX] for the other control
    characters, and every other character as it is. *)
Definition hex_lower (n : N) : ascii :=
  ascii_of_N (if (n <? 10)%N then 48 + n else 87 + n).

Definition quote_char (c : ascii) : string :=
  let n := N_of_ascii c in
  if (n =? 34)%N then String "\" (String "034" EmptyString)
  else if (n =? 92)%N then "\\"
  else if (n =? 8)%N then "\b"
  else if (n =? 9)%N then "\t"
  else if (n =? 10)%N then "\n"
  else if (n =? 12)%N then "\f"
  else if (n =? 13)%N then "\r"
  else if (n <? 32)%N then
    "\u00" +:+ String (hex_lower (n / 16)) (String (hex_lower (n mod 16)) EmptyString)
  else String c EmptyString.

Fixpoint quote_chars (s : string) : string :=
  match s with
  | EmptyString => EmptyString
  | String c s' => quote_char c +:+ quote_chars s'
  end.

Definition quote (s : string) : string :=
  String "034" (quote_chars s +:+ String "034" EmptyString).

(** [JSON.stringify({ message, timestamp })] for two strings. *)
Definition stringify_testData (message timestamp : string) : string :=
  dq "{'message':" +:+ quote message +:+ dq ",'timestamp':" +:+ quote timestamp +:+ "}".

(** The arguments of a call of [fetch]. *)
Record FetchCall := mkFetchCall {
  url : string;
  fetch_method : string;
  headers : list (string * string);
  fetch_body : string
}.

(** How a call of [fetch] ends: the promise is rejected, or it resolves to
    a response. *)
Inductive FetchResult :=
| Rejected (error : Error)
| Resolved (status : nat) (statusText : string) (text : string).

(** [response.ok]. *)
Definition ok (status : nat) : bool := (200 <=? status)%nat && (status <=? 299)%nat.

(** What [resultDiv.innerHTML] is set to; the markup around the texts is
    left out, and the pretty-printed response is kept as the value it
    prints. *)
Inductive View :=
| Calling (lambdaName : string)
| Sent (lambdaName : string) (data : Value)
| CallFailed (lambdaName : string) (text : string).

(** The browser: the clock, the network ([fetch] answers a call), the calls
    made so far and the contents [innerHTML] was given, oldest first. *)
Record Browser := mkBrowser {
  now : Z;
  network : FetchCall -> FetchResult;
  calls : list FetchCall;
  innerHTML : list View
}.

Definition P (A : Type) : Type := Browser -> Completion A * Browser.

Definition pret {A} (a : A) : P A := fun b => (Normal a, b).

Definition pbind {A B} (m : P A) (k : A -> P B) : P B :=
  fun b =>
    match m b with
    | (Normal a, b') => k a b'
    | (Throw e, b') => (Throw e, b')
    end.

Definition pthrow {A} (e : Error) : P A := fun b => (Throw e, b).

Definition ptry {A} (m : P A) (h : Error -> P A) : P A :=
  fun b =>
    match m b with
    | (Normal a, b') => (Normal a, b')
    | (Throw e, b') => h e b'
    end.

(** [resultDiv.innerHTML = view]. *)
Definition set_innerHTML (view : View) : P unit :=
  fun b => (Normal tt, mkBrowser (now b) (network b) (calls b) (innerHTML b ++ [view])).

(** [new Date().toISOString()]. *)
Definition Date_toISOString : P string :=
  fun b => (Normal (toISOString (now b)), b).

(** [await fetch(url, init)]: a rejected promise is thrown at the [await]. *)
Inductive Response := mkResponse (status : nat) (statusText : string) (text : string).

Definition fetch (call : FetchCall) : P Response :=
  fun b =>
    let b' := mkBrowser (now b) (network b) (calls b ++ [call]) (innerHTML b) in
    match network b call with
    | Rejected error => (Throw error, b')
    | Resolved status statusText text => (Normal (mkResponse status statusText text), b')
    end.

(** [await response.json()]. *)
Definition response_json (response : Response) : P Value :=
  match response with
  | mkResponse _ _ text =>
      match JSON.parse text with
      | inr value => pret value
      | inl error => pthrow error
      end
  end.

Declare Scope page_scope.
Delimit Scope page_scope with page.
Notation "'let*' x := m 'in' k" := (pbind m (fun x => k))
  (at level 10, x name, m at level 100, k at level 200) : page_scope.
Notation "m ;; k" := (pbind m (fun _ => k))
  (at level 100, k at level 200, right associativity) : page_scope.

Open Scope page_scope.

Definition testApi (endpoint lambdaName : string) : P unit :=
  set_innerHTML (Calling lambdaName) ;;
  ptry
    (let* timestamp := Date_toISOString in
     let message := "Test message from web UI for " +:+ lambdaName in
     let* response :=
       fetch (mkFetchCall endpoint "POST" [("Content-Type", "application/json")]
                (stringify_testData message timestamp)) in
     match response with
     | mkResponse status statusText _ =>
         if negb (ok status) then
           pthrow (mkError "Error" ("HTTP " +:+ decimal status +:+ ": " +:+ statusText))
         else
           let* data := response_json response in
           set_innerHTML (Sent lambdaName data)
     end)
    (fun error => set_innerHTML (CallFailed lambdaName (message error))).

Definition testLambda1 : P unit := testApi "/api/sample-lambda-1" "Sample Lambda 1".

Definition testLambda2 : P unit := testApi "/api/sample-lambda-2" "Sample Lambda 2".

Close Scope page_scope.

(** The request the endpoint receives for a call of [fetch] that reaches
    it with the request id [id]: the path cut at every [/]. *)
Definition segments (path : string) : list string :=
  match Gateway.split_on "/" path with
  | EmptyString :: rest => rest
  | pieces => pieces
  end.



(** A browser whose network answers every call with the given result. *)
Definition browser (result : FetchResult) : Browser :=
  mkBrowser 1700000000123 (fun _ => result) [] [].

End Page.

(* ===================================================================== *)
(** ** [BackendStack]: the role the API assumes *)
(* ===================================================================== *)

Module Iam.
Import JS Cdk BackendStack.

Inductive Effect := ALLOW | DENY.

(** [iam.PolicyStatement]; a resource is a queue, named by its ARN. *)
Record PolicyStatement := mkPolicyStatement {
  effect : Effect;
  actions : list string;
  resources : list Queue
}.

Record Role := mkRole {
  assumedBy : string;
  inlinePolicies : list (string * list PolicyStatement)
}.

Definition apiGatewayRole : Role := {|
  assumedBy := "apigateway.amazonaws.com";
  inlinePolicies :=
    [ ("SendMessagePolicy",
       [ mkPolicyStatement ALLOW ["sqs:SendMessage"] [queue1; queue2] ]) ]
|}.

(** [options.credentialsRole] of the two integrations. *)
Definition credentialsRole : list (AwsIntegration * Role) :=
  [ (sqsIntegration1, apiGatewayRole); (sqsIntegration2, apiGatewayRole) ].

Definition lower_char (c : ascii) : ascii :=
  let n := N_of_ascii c in
  if ((65 <=? n) && (n <=? 90))%N then ascii_of_N (n + 32) else c.

Fixpoint lower (s : string) : string :=
  match s with
  | EmptyString => EmptyString
  | String c s' => String (lower_char c) (lower s')
  end.

(** A statement names an action (action names are compared without regard
    to case) and a resource (by the name of the queue). *)
Definition names (statement : PolicyStatement) (action : string) (resource : Queue) : bool :=
  existsb (fun a => String.eqb (lower a) (lower action)) (actions statement)
  && existsb (fun q => String.eqb (queueName q) (queueName resource)) (resources statement).

Definition statements (role : Role) : list PolicyStatement :=
  concat (map snd (inlinePolicies role)).

(** The role may do [action] on [resource]: an [ALLOW] statement names
    them and no [DENY] statement does. *)
Definition allowed (role : Role) (action : string) (resource : Queue) : bool :=
  existsb (fun s => match effect s with
                    | ALLOW => names s action resource
                    | DENY => false
                    end) (statements role)
  && negb (existsb (fun s => match effect s with
                             | DENY => names s action resource
                             | ALLOW => false
                             end) (statements role)).

End Iam.

(* ===================================================================== *)
(** ** A delivery, the handler's answer, and what the queue does with it *)
(* ===================================================================== *)

Module Redelivery.
Import JS Runtime Lambda2 Batch Effects QueueModel.

(** Whether the returned value reports [record] as failed. *)
Definition reports (response : Response) (record : SQSRecord) : bool :=
  existsb (fun item => match item with
                       | Some id => String.eqb id (messageId record)
                       | None => false
                       end) (reported_failures response).

(** One delivery of [record] alone to the handler running in [w]: the queue
    delivers, the handler returns, and the message is acknowledged unless the
    returned value reports it (an invocation that throws acknowledges
    nothing). *)
Definition attempt (c : Config) (record : SQSRecord) (w : World SQSEvent ProcessedData)
    (m : Message) : option Message :=
  match step c Deliver m with
  | Some m' =>
      match returned (Lambda2.handler (mkEvent [record]) w) with
      | Some response =>
          step c (if reports response record then ReportFailure else Acknowledge) m'
      | None => step c ReportFailure m'
      end
  | None => None
  end.

(** One attempt for each world of [ws], in order. *)
Fixpoint attempts (c : Config) (record : SQSRecord)
    (ws : list (World SQSEvent ProcessedData)) (m : Message) : option Message :=
  match ws with
  | [] => Some m
  | w :: ws' =>
      match attempt c record w m with
      | Some m' => attempts c record ws' m'
      | None => None
      end
  end.

End Redelivery.

(* ===================================================================== *)
(** ** The batch consumer *)
(* ===================================================================== *)

Section HandlerFacts.
Import JS Runtime Lambda2 Batch.

Local Ltac unfold_monad :=
  unfold bind, ret, throw, try_catch, console_log, console_error, Date_now,
    await_timeout, JSON_parse.

(** The message of an error thrown by [JSON.parse] is never empty. *)
Lemma run_error_truthy (cs : list ascii) :
  forall s pos error, JSON.run s pos cs = inl error -> truthy_string (message error) = true.
Proof.
  induction cs as [|c cs IH]; intros s pos error; simpl.
  - destruct (JSON.finish s); intros H; inversion H; reflexivity.
  - destruct (JSON.step s c) as [s'|].
    + apply IH.
    + intros H; inversion H; reflexivity.
Qed.

Lemma parse_error_truthy (text : string) (error : Error) :
  JSON.parse text = inl error -> truthy_string (message error) = true.
Proof. apply run_error_truthy. Qed.

Lemma try_block_ok (record : SQSRecord) (value : Value) w :
  JSON.parse (body record) = inr value ->
  exists processedData w',
    try_block record w = (Normal processedData, w')
    /\ pd_messageId processedData = messageId record
    /\ data processedData = value.
Proof.
  intros Hparse. unfold try_block. unfold_monad. rewrite Hparse. cbn.
  eexists _, _. split; [reflexivity|]. split; reflexivity.
Qed.

Lemma try_block_throws (record : SQSRecord) (error : Error) w :
  JSON.parse (body record) = inl error ->
  exists w', try_block record w = (Throw error, w').
Proof.
  intros Hparse. unfold try_block. unfold_monad. rewrite Hparse. cbn.
  eexists. reflexivity.
Qed.

(** The [try] block throws exactly when the body does not parse. *)
Lemma try_block_throws_iff (record : SQSRecord) w :
  throws (fst (try_block record w)) = transformation_fails record.
Proof.
  unfold transformation_fails.
  destruct (JSON.parse (body record)) as [error|value] eqn:Hparse.
  - destruct (try_block_throws record error w Hparse) as [w' ->]. reflexivity.
  - destruct (try_block_ok record value w Hparse) as (pd & w' & -> & _). reflexivity.
Qed.

(** One iteration returns normally and pushes the entry of its record. *)
Lemma iteration_pushes (results : list Result) (record : SQSRecord) w :
  exists result w',
    iteration results record w = (Normal (results ++ [result]), w')
    /\ entry_of record result.
Proof.
  unfold iteration, entry_of.
  destruct (JSON.parse (body record)) as [error|value] eqn:Hparse.
  - destruct (try_block_throws record error w Hparse) as [w' Hthrow].
    unfold try_catch at 1. unfold bind at 1. rewrite Hthrow.
    unfold_monad. eexists _, _. split; reflexivity.
  - destruct (try_block_ok record value w Hparse) as (pd & w' & Hok & Hid & Hdata).
    unfold try_catch at 1. unfold bind at 1. rewrite Hok.
    unfold_monad. eexists _, _. split; [reflexivity|]. eauto.
Qed.

Lemma for_of_iteration (records : list SQSRecord) :
  forall acc w,
  exists results w',
    for_of records iteration acc w = (Normal (acc ++ results), w')
    /\ Forall2 entry_of records results.
Proof.
  induction records as [|record records IH]; intros acc w; simpl.
  - exists [], w. rewrite app_nil_r. split; [reflexivity | constructor].
  - destruct (iteration_pushes acc record w) as (result & w1 & Hit & Hentry).
    destruct (IH (acc ++ [result]) w1) as (rest & w2 & Hrest & Hall).
    exists (result :: rest), w2. split.
    + unfold bind. rewrite Hit, Hrest. rewrite <- app_assoc. reflexivity.
    + constructor; assumption.
Qed.

Lemma process_records_entries (records : list SQSRecord) w :
  exists results w',
    process_records records w = (Normal results, w')
    /\ Forall2 entry_of records results.
Proof. exact (for_of_iteration records [] w). Qed.

(** [results.filter(result => result.error)] keeps the entries of the
    failed records, in order. *)
Lemma failures_of_entries (records : list SQSRecord) (results : list Result) :
  Forall2 entry_of records results ->
  map get_itemIdentifier (filter (fun result => truthy (get_error result) = true) results)
  = map (fun record => Some (messageId record)) (failed_records records).
Proof.
  unfold failed_records.
  induction 1 as [|record result records results Hentry _ IH]; [reflexivity|].
  unfold entry_of, transformation_fails in *.
  rewrite !filter_cons.
  destruct (JSON.parse (body record)) as [error|value] eqn:Hparse.
  - subst result. cbn [get_error truthy].
    rewrite (parse_error_truthy _ _ Hparse).
    rewrite !decide_True by reflexivity. cbn. f_equal. exact IH.
  - destruct Hentry as (pd & -> & _). cbn [get_error truthy].
    rewrite !decide_False by discriminate. exact IH.
Qed.

Lemma failed_records_none (records : list SQSRecord) :
  Forall (fun record => transformation_fails record = false) records ->
  failed_records records = [].
Proof.
  unfold failed_records.
  induction 1 as [|record records Hf _ IH]; [reflexivity|].
  rewrite filter_cons, decide_False by (rewrite Hf; discriminate). exact IH.
Qed.

Lemma successes_of_entries (records : list SQSRecord) (results : list Result) :
  Forall2 entry_of records results ->
  failed_records records = [] ->
  filter (fun result => truthy (get_error result) = true) results = [].
Proof.
  intros Hall Hnone.
  pose proof (failures_of_entries records results Hall) as H.
  rewrite Hnone in H. cbn in H.
  destruct (filter _ results); [reflexivity | discriminate].
Qed.

(** What [handler] returns, in terms of the entries of [results]. *)
Lemma handler_returns (event : SQSEvent) w :
  exists results w',
    Forall2 entry_of (Records event) results
    /\ handler event w
       = (Normal
            (let failures := filter (fun result => truthy (get_error result) = true) results in
             if (0 <? length failures)%nat
             then Failures (map (fun failure => mkBatchItemFailure (get_itemIdentifier failure)) failures)
             else Success 200 (length results) results), w').
Proof.
  unfold handler, bind, console_log. cbn beta iota.
  match goal with |- context [process_records _ ?w1] =>
    destruct (process_records_entries (Records event) w1) as (results & w2 & Hrun & Hall) end.
  rewrite Hrun. cbn beta iota zeta.
  eexists results, _. split; [exact Hall|].
  destruct (0 <? length _)%nat; reflexivity.
Qed.

End HandlerFacts.

Section HandlerClaims.
Import JS Runtime Lambda2 Batch.

Lemma Forall2_entry_lookup (records : list SQSRecord) (results : list Result) i record :
  Forall2 entry_of records results ->
  records !! i = Some record ->
  exists result, results !! i = Some result /\ entry_of record result.
Proof.
  intros Hall Hi.
  destruct (Forall2_lookup_l _ _ _ _ _ Hall Hi) as (result & Hres & Hentry).
  eauto.
Qed.

Lemma same_id_same_record (records : list SQSRecord) (a b : SQSRecord) :
  NoDup (map messageId records) ->
  a ∈ records -> b ∈ records -> messageId a = messageId b -> a = b.
Proof.
  induction records as [|r records IH]; intros Hnodup Ha Hb Hid.
  - inversion Ha.
  - cbn in Hnodup. apply NoDup_cons in Hnodup as [Hfresh Hnodup].
    apply elem_of_cons in Ha as [->|Ha]; apply elem_of_cons in Hb as [->|Hb].
    + reflexivity.
    + exfalso. apply Hfresh. rewrite Hid. apply list_elem_of_fmap. eauto.
    + exfalso. apply Hfresh. rewrite <- Hid. apply list_elem_of_fmap. eauto.
    + auto.
Qed.

Lemma filter_agree {A} (P Q : A -> Prop)
    `{forall x, Decision (P x)} `{forall x, Decision (Q x)} (l : list A) :
  (forall x, x ∈ l -> (P x <-> Q x)) -> filter P l = filter Q l.
Proof.
  induction l as [|a l IH]; intros Hagree; [reflexivity|].
  rewrite !filter_cons.
  assert (Ha : P a <-> Q a) by (apply Hagree; left).
  rewrite IH by (intros x Hx; apply Hagree; right; exact Hx).
  destruct (decide (P a)), (decide (Q a)); tauto.
Qed.

Lemma filter_split_length {A} (P : A -> Prop) `{forall x, Decision (P x)} (l : list A) :
  (length (filter P l) + length (filter (fun x => ~ P x) l) = length l)%nat.
Proof.
  induction l as [|a l IH]; [reflexivity|].
  rewrite !filter_cons.
  destruct (decide (P a)), (decide (~ P a)); cbn; try tauto; lia.
Qed.

(** C1. For a batch of [N] delivery records of which exactly [K] fail
    transformation, the handler returns, and the identifiers its value
    reports as failed are the [messageId]s of those [K] records, one entry
    per failed record and in batch order: an identifier is reported exactly
    when a failed record carries it, and (message ids being distinct within
    a batch) the records whose id is reported are the [K] failed ones, so the
    other [N - K] are not reported. *)
Theorem handler_reports_exactly_the_failed (event : SQSEvent) w (N K : nat) :
  length (Records event) = N ->
  length (failed_records (Records event)) = K ->
  exists response w',
    handler event w = (Normal response, w')
    /\ reported_failures response
       = map (fun record => Some (messageId record)) (failed_records (Records event))
    /\ length (reported_failures response) = K
    /\ (forall id, Some id ∈ reported_failures response <->
          exists record, record ∈ Records event
                         /\ transformation_fails record = true
                         /\ messageId record = id)
    /\ (NoDup (map messageId (Records event)) ->
        filter (fun record => Some (messageId record) ∈ reported_failures response) (Records event)
        = failed_records (Records event)
        /\ length (filter (fun record => Some (messageId record) ∉ reported_failures response)
                     (Records event)) = (N - K)%nat).
Proof.
  intros HN HK.
  destruct (handler_returns event w) as (results & w' & Hall & Hret).
  pose proof (failures_of_entries _ _ Hall) as Hfail.
  eexists _, w'. split; [exact Hret|].
  assert (Hrep : reported_failures
            (let failures := filter (fun result => truthy (get_error result) = true) results in
             if (0 <? length failures)%nat
             then Failures (map (fun failure => mkBatchItemFailure (get_itemIdentifier failure)) failures)
             else Success 200 (length results) results)
          = map (fun record => Some (messageId record)) (failed_records (Records event))).
  { cbv zeta. rewrite <- Hfail.
    destruct (filter _ results) as [|failure failures]; [reflexivity|].
    cbn [length Nat.ltb Nat.leb reported_failures]. rewrite map_map. reflexivity. }
  rewrite Hrep. clear Hrep Hret Hfail Hall results.
  assert (Hmem : forall id,
            Some id ∈ map (fun record => Some (messageId record)) (failed_records (Records event))
            <-> exists record, record ∈ Records event
                               /\ transformation_fails record = true
                               /\ messageId record = id).
  { intros id. unfold failed_records. split.
    - intros Hin. apply list_elem_of_fmap in Hin as (record & Heq & Hin).
      apply list_elem_of_filter in Hin as [Hf Hin]. inversion Heq; subst. eauto.
    - intros (record & Hin & Hf & <-). apply list_elem_of_fmap. exists record.
      split; [reflexivity|]. apply list_elem_of_filter. auto. }
  split; [reflexivity|]. split; [rewrite length_map; exact HK|].
  split; [exact Hmem|].
  intros Hnodup.
  assert (Hsame : forall record, record ∈ Records event ->
            (Some (messageId record)
               ∈ map (fun record => Some (messageId record)) (failed_records (Records event)))
            <-> transformation_fails record = true).
  { intros record Hin. rewrite Hmem. split.
    - intros (other & Hother & Hf & Hid).
      rewrite <- (same_id_same_record _ _ _ Hnodup Hother Hin Hid). exact Hf.
    - intros Hf. eauto. }
  assert (Heq : filter (fun record => Some (messageId record)
                    ∈ map (fun record => Some (messageId record)) (failed_records (Records event)))
                  (Records event) = failed_records (Records event)).
  { unfold failed_records at 2. apply filter_agree. exact Hsame. }
  split; [exact Heq|].
  pose proof (filter_split_length
    (fun record => Some (messageId record)
       ∈ map (fun record => Some (messageId record)) (failed_records (Records event)))
    (Records event)) as Hcount.
  rewrite Heq in Hcount. lia.
Qed.

(** The batch [hello; malformed; list_body]: three records, one of which
    fails, and its id is the one reported. *)
Lemma handler_reports_exactly_the_failed_witness :
  exists response w',
    handler (mkEvent [hello; malformed; list_body]) world0 = (Normal response, w')
    /\ reported_failures response = [Some (messageId malformed)]
    /\ length (reported_failures response) = 1%nat.
Proof.
  destruct (handler_reports_exactly_the_failed
              (mkEvent [hello; malformed; list_body]) world0 3 1)
    as (response & w' & Hret & Hrep & Hlen & _).
  - vm_compute. reflexivity.
  - vm_compute. reflexivity.
  - exists response, w'. split; [exact Hret|]. split; [exact Hrep | exact Hlen].
Defined.

(** C2. Whatever the batch, the loop runs to its end and the handler
    returns a value: no error escapes. A record whose processing throws
    (its body fails [JSON.parse]) gets its [messageId] recorded as failed, at
    its own position of [results], with the error's message; every sibling
    has its own entry, a processed one when its body parses. *)
Theorem record_failure_is_isolated (records : list SQSRecord) w :
  exists results w',
    process_records records w = (Normal results, w')
    /\ length results = length records
    /\ (forall i record, records !! i = Some record ->
          (forall w_i error, fst (try_block record w_i) = Throw error ->
             results !! i = Some (Failed (messageId record) (message error)))
          /\ (forall error, JSON.parse (body record) = inl error ->
                results !! i = Some (Failed (messageId record) (message error)))
          /\ (transformation_fails record = false ->
                exists processedData,
                  results !! i = Some (Processed processedData)
                  /\ pd_messageId processedData = messageId record))
    /\ (exists response w'', handler (mkEvent records) w = (Normal response, w''))
    /\ (forall record, record ∈ records -> transformation_fails record = true ->
          forall response w'', handler (mkEvent records) w = (Normal response, w'') ->
            Some (messageId record) ∈ reported_failures response).
Proof.
  destruct (process_records_entries records w) as (results & w' & Hrun & Hall).
  exists results, w'. split; [exact Hrun|].
  split; [symmetry; exact (Forall2_length _ _ _ Hall)|].
  split; [|split].
  - intros i record Hi.
    destruct (Forall2_entry_lookup _ _ _ _ Hall Hi) as (result & Hres & Hentry).
    unfold entry_of, transformation_fails in *.
    destruct (JSON.parse (body record)) as [error|value] eqn:Hparse.
    + subst result. split; [|split].
      * intros w_i error' Hthrow.
        destruct (try_block_throws record error w_i Hparse) as [w'' Heq].
        rewrite Heq in Hthrow. cbn in Hthrow. inversion Hthrow; subst. exact Hres.
      * intros error' Heq. inversion Heq; subst. exact Hres.
      * discriminate.
    + destruct Hentry as (pd & -> & Hid & _). split; [|split].
      * intros w_i error Hthrow.
        destruct (try_block_ok record value w_i Hparse) as (pd' & w'' & Heq & _).
        rewrite Heq in Hthrow. discriminate.
      * discriminate.
      * intros _. eauto.
  - destruct (handler_returns (mkEvent records) w) as (rs & w'' & _ & Hret). eauto.
  - intros record Hin Hfails response w'' Hret.
    destruct (handler_returns (mkEvent records) w) as (rs & w3 & Hall' & Hret').
    rewrite Hret' in Hret. inversion Hret; subst response w''. clear Hret.
    pose proof (failures_of_entries _ _ Hall') as Hfail. cbn [Records] in Hfail.
    assert (Hmem : Some (messageId record)
                     ∈ map (fun record => Some (messageId record)) (failed_records records)).
    { apply list_elem_of_fmap. exists record. split; [reflexivity|].
      apply list_elem_of_filter. auto. }
    rewrite <- Hfail in Hmem. cbv zeta.
    destruct (filter _ rs) as [|failure failures]; [inversion Hmem|].
    cbn [length Nat.ltb Nat.leb reported_failures]. rewrite map_map. exact Hmem.
Qed.

(** A malformed body between two well-formed ones: its id is recorded at
    position 1 and both siblings are processed. *)
Lemma record_failure_is_isolated_witness :
  exists results w',
    process_records [hello; malformed; list_body] world0 = (Normal results, w')
    /\ results !! 1%nat = Some (Failed (messageId malformed) "Unexpected token o in JSON at position 1")
    /\ (exists processedData, results !! 2%nat = Some (Processed processedData)).
Proof.
  destruct (record_failure_is_isolated [hello; malformed; list_body] world0)
    as (results & w' & Hrun & _ & Heach & _).
  exists results, w'. split; [exact Hrun|]. split.
  - destruct (Heach 1%nat malformed eq_refl) as (_ & Hfail & _).
    apply (Hfail (mkError "SyntaxError" "Unexpected token o in JSON at position 1")).
    vm_compute. reflexivity.
  - destruct (Heach 2%nat list_body eq_refl) as (_ & _ & Hok).
    destruct Hok as (pd & Hpd & _); [vm_compute; reflexivity|]. eauto.
Defined.

Lemma handler_success (event : SQSEvent) w :
  Forall (fun record => transformation_fails record = false) (Records event) ->
  exists results w',
    handler event w = (Normal (Success 200 (length (Records event)) results), w')
    /\ Forall (fun result => get_error result = None) results.
Proof.
  intros Hok.
  destruct (handler_returns event w) as (results & w' & Hall & Hret).
  rewrite (successes_of_entries _ _ Hall (failed_records_none _ Hok)) in Hret.
  cbn in Hret. rewrite <- (Forall2_length _ _ _ Hall) in Hret.
  exists results, w'. split; [exact Hret|].
  clear Hret. induction Hall as [|record result records results Hentry _ IH];
    constructor.
  - apply Forall_cons in Hok as [Hf _].
    unfold entry_of, transformation_fails in *.
    destruct (JSON.parse (body record)); [discriminate|].
    destruct Hentry as (pd & -> & _). reflexivity.
  - apply IH. apply Forall_cons in Hok as [_ Hok]. exact Hok.
Qed.

(** C3. When every record of the batch is processed without error, the
    handler returns the unconditional-success value: [statusCode] 200, the
    count and the results, and no [batchItemFailures] field, so it reports no
    failed identifier. In particular a batch of one message with the body
    [{"message":"Hello World"}] reports zero failed identifiers. *)
Theorem all_success_returns_the_success_marker :
  (forall (event : SQSEvent) w,
     Forall (fun record => transformation_fails record = false) (Records event) ->
     exists results w',
       handler event w = (Normal (Success 200 (length (Records event)) results), w')
       /\ reported_failures (Success 200 (length (Records event)) results) = []
       /\ Forall (fun result => get_error result = None) results)
  /\ (forall (id receipt : string) attributes w,
        exists results w',
          handler (mkEvent [mkRecord id receipt (dq "{'message':'Hello World'}") attributes]) w
          = (Normal (Success 200 1 results), w')
          /\ length (reported_failures (Success 200 1 results)) = 0%nat).
Proof.
  split.
  - intros event w Hok.
    destruct (handler_success event w Hok) as (results & w' & Hret & Hnone).
    exists results, w'. split; [exact Hret|]. split; [reflexivity | exact Hnone].
  - intros id receipt attributes w.
    destruct (handler_success
                (mkEvent [mkRecord id receipt (dq "{'message':'Hello World'}") attributes]) w)
      as (results & w' & Hret & _).
    { constructor; [vm_compute; reflexivity | constructor]. }
    exists results, w'. split; [exact Hret | reflexivity].
Qed.

Lemma all_success_returns_the_success_marker_witness :
  exists results w',
    handler (mkEvent [hello; list_body]) world0 = (Normal (Success 200 2 results), w').
Proof.
  destruct (proj1 all_success_returns_the_success_marker (mkEvent [hello; list_body]) world0)
    as (results & w' & Hret & _).
  - repeat constructor.
  - exists results, w'. exact Hret.
Defined.

(** C9. Every iteration of the loop pushes exactly one entry onto
    [results], the processed-data object of its record or the failure object
    of its record, so after the loop [results] has one entry per delivery
    record; and when the handler takes the all-success return path, the
    [processedCount] it reports is the number of records of the batch. *)
Theorem one_result_per_record (event : SQSEvent) w :
  (forall results record w1,
     exists result w2,
       iteration results record w1 = (Normal (results ++ [result]), w2)
       /\ entry_of record result)
  /\ (exists results w',
        process_records (Records event) w = (Normal results, w')
        /\ length results = length (Records event)
        /\ Forall2 entry_of (Records event) results)
  /\ (forall status count results w',
        handler event w = (Normal (Success status count results), w') ->
        count = length (Records event) /\ length results = length (Records event)).
Proof.
  split; [exact iteration_pushes|]. split.
  - destruct (process_records_entries (Records event) w) as (results & w' & Hrun & Hall).
    exists results, w'. split; [exact Hrun|].
    split; [symmetry; exact (Forall2_length _ _ _ Hall) | exact Hall].
  - intros status count results w' Hret.
    destruct (handler_returns event w) as (rs & w'' & Hall & Hret').
    rewrite Hret' in Hret. cbv zeta in Hret.
    destruct (0 <? length _)%nat; [discriminate|].
    inversion Hret; subst. rewrite (Forall2_length _ _ _ Hall). split; reflexivity.
Qed.

Lemma one_result_per_record_witness :
  exists status count results w',
    handler (mkEvent [hello; list_body]) world0 = (Normal (Success status count results), w')
    /\ count = 2%nat.
Proof.
  destruct (handler_success (mkEvent [hello; list_body]) world0)
    as (results & w' & Hret & _); [repeat constructor|].
  exists 200, 2%nat, results, w'. split; [exact Hret|].
  eapply (proj2 (proj2 (one_result_per_record (mkEvent [hello; list_body]) world0))).
  exact Hret.
Defined.

End HandlerClaims.

(* ===================================================================== *)
(** ** The queue declarations *)
(* ===================================================================== *)

Section StackClaims.
Import Cdk BackendStack.

(** The consumers of a queue: the functions an event source attaches to
    it. *)
Lemma primaryQueues_are : primaryQueues = [queue1; queue2].
Proof. reflexivity. Qed.

Lemma deadLetterQueues_are : deadLetterQueues = [dlq1; dlq2].
Proof. reflexivity. Qed.

(** C4. Each primary queue of the backend stack is read by a consumer
    function through an event source; the queue's visibility timeout is 60
    seconds, the function's timeout is 30 seconds, and the former is exactly
    twice the latter. The same holds of every declared event source. *)
Theorem visibility_timeout_is_twice_consumer_timeout :
  Forall (fun q =>
            exists fn source,
              In (fn, source) eventSources
              /\ source_queue source = q
              /\ visibilityTimeout q = Some (Duration_seconds 60)
              /\ timeout fn = Some (Duration_seconds 30)
              /\ toSeconds (Duration_seconds 60) = 2 * toSeconds (Duration_seconds 30))
         primaryQueues
  /\ Forall (fun '(fn, source) =>
               exists v t,
                 visibilityTimeout (source_queue source) = Some v
                 /\ timeout fn = Some t
                 /\ toSeconds v = 60
                 /\ toSeconds t = 30
                 /\ toSeconds v = 2 * toSeconds t)
            eventSources.
Proof.
  split.
  - repeat constructor.
    + exists lambdaFunction1, (mkSqsEventSource queue1 10 (Duration_seconds 5) true).
      repeat split. left. reflexivity.
    + exists lambdaFunction2, (mkSqsEventSource queue2 10 (Duration_seconds 5) true).
      repeat split. right. left. reflexivity.
  - repeat constructor; eexists _, _; repeat split.
Qed.

End StackClaims.

(* ===================================================================== *)
(** ** The life of a message under the declared settings *)
(* ===================================================================== *)

Section QueueClaims.
Import Cdk BackendStack QueueModel.


Lemma config_of_primary (defaults : Defaults) (q : Queue) (c : Config) :
  In q primaryQueues ->
  config_of defaults q = Some c ->
  threshold c = 3%nat
  /\ visibility c = 60
  /\ retention_primary c = default_retention defaults
  /\ retention_deadLetter c = 14 * 86400.
Proof.
  intros [<-|[<-|[]]]; cbn; intros H; inversion H; subst c; cbn; auto.
Qed.












End QueueClaims.

(* ===================================================================== *)
(** ** The ingestion endpoint *)
(* ===================================================================== *)

Section GatewayFacts.
Import Cdk BackendStack Gateway.

#[local] Arguments String.append !s1 s2 : simpl nomatch.

(** Case analysis on the eight bits of a character. *)
Local Ltac each_char c :=
  destruct c as [[] [] [] [] [] [] [] []].

Lemma split_on_nonempty (sep : ascii) (s : string) : split_on sep s <> [].
Proof.
  destruct s as [|c s]; cbn -[Ascii.eqb]; [discriminate|].
  destruct (c =? sep)%char; [discriminate|].
  destruct (split_on sep s); discriminate.
Qed.










Lemma requestId_char_facts (c : ascii) :
  is_requestId_char c = true ->
  (c =? "&")%char = false /\ (c =? "=")%char = false
  /\ (c =? "+")%char = false /\ (c =? "%")%char = false
  /\ JSON.plain c = true.
Proof.
  each_char c; vm_compute; intros H; try discriminate H; repeat split; reflexivity.
Qed.

Lemma requestId_facts (s : string) :
  is_requestId s = true ->
  contains "&" s = false /\ contains "=" s = false /\ urlDecode s = Some s
  /\ Forall (fun c => JSON.plain c = true) (list_ascii_of_string s).
Proof.
  induction s as [|c s IH]; cbn -[Ascii.eqb is_requestId_char JSON.plain].
  - intros _. repeat split; constructor.
  - intros H. apply andb_true_iff in H as [Hc Hs].
    destruct (IH Hs) as (H1 & H2 & H3 & H4).
    destruct (requestId_char_facts c Hc) as (Ha & He & Hp & Hq & Hplain).
    rewrite Ha, He, Hp, Hq, H1, H2, H3. repeat split. constructor; assumption.
Qed.



End GatewayFacts.

Section GatewayClaims.
Import JS Cdk BackendStack Gateway.

(** The only methods of the API are the two [POST]s. *)
Lemma find_method_cases (request : Request) (m : Method) :
  find_method root request = Some m ->
  method request = "POST"
  /\ (path request = ["api"; "sample-lambda-1"] /\ m = lambda1Post
      \/ path request = ["api"; "sample-lambda-2"] /\ m = lambda2Post).
Proof.
  unfold find_method.
  destruct (path request) as [|s1 [|s2 [|s3 rest]]]; cbn -[String.eqb].
  - discriminate.
  - destruct (String.eqb "api" s1); cbn; discriminate.
  - destruct (String.eqb_spec "api" s1) as [<-|]; [|discriminate].
    destruct (String.eqb_spec "sample-lambda-1" s2) as [<-|].
    + cbn -[String.eqb].
      destruct (String.eqb_spec "POST" (method request)) as [<-|]; [|discriminate].
      intros H; inversion H. auto.
    + destruct (String.eqb_spec "sample-lambda-2" s2) as [<-|]; [|discriminate].
      cbn -[String.eqb].
      destruct (String.eqb_spec "POST" (method request)) as [<-|]; [|discriminate].
      intros H; inversion H. auto.
  - destruct (String.eqb "api" s1); [|discriminate].
    destruct (String.eqb "sample-lambda-1" s2); [discriminate|].
    destruct (String.eqb "sample-lambda-2" s2); discriminate.
Qed.

Lemma find_method_post1 (request : Request) :
  method request = "POST" -> path request = ["api"; "sample-lambda-1"] ->
  find_method root request = Some lambda1Post.
Proof. unfold find_method. intros -> ->. reflexivity. Qed.

Lemma find_method_post2 (request : Request) :
  method request = "POST" -> path request = ["api"; "sample-lambda-2"] ->
  find_method root request = Some lambda2Post.
Proof. unfold find_method. intros -> ->. reflexivity. Qed.



Lemma list_ascii_of_string_app (a b : string) :
  list_ascii_of_string (a +:+ b) = list_ascii_of_string a ++ list_ascii_of_string b.
Proof.
  induction a as [|c a IH]; [reflexivity|].
  change (String c a +:+ b) with (String c (a +:+ b)). cbn. rewrite IH. reflexivity.
Qed.

Lemma run_steps (cs : list ascii) :
  forall s s' pos rest,
    JSON.steps s cs = Some s' ->
    JSON.run s pos (cs ++ rest) = JSON.run s' (pos + length cs) rest.
Proof.
  induction cs as [|c cs IH]; intros s s' pos rest; cbn.
  - intros H; inversion H; subst. rewrite Nat.add_0_r. reflexivity.
  - destruct (JSON.step s c) as [s1|]; [|discriminate].
    intros H. rewrite (IH _ _ (S pos) rest H). f_equal. lia.
Qed.

(** Inside a string literal, plain characters are taken as they are. *)
Lemma steps_plain (cs : list ascii) :
  forall acc m st,
    Forall (fun c => JSON.plain c = true) cs ->
    JSON.steps (JSON.mkState (JSON.SString acc) m st) cs
    = Some (JSON.mkState (JSON.SString (rev (map N_of_ascii cs) ++ acc)) m st).
Proof.
  induction cs as [|c cs IH]; intros acc m st Hall; [reflexivity|].
  apply Forall_cons in Hall as [Hc Hall].
  unfold JSON.plain in Hc.
  apply andb_true_iff in Hc as [Hc Hctl]. apply andb_true_iff in Hc as [Hquote Hback].
  apply negb_true_iff in Hquote, Hback, Hctl.
  cbn [JSON.steps]. unfold JSON.step at 1. cbn [JSON.scan JSON.expect JSON.stack].
  rewrite Hquote, Hback, Hctl. rewrite (IH _ _ _ Hall).
  cbn [map rev]. rewrite <- app_assoc. reflexivity.
Qed.

(** The rendered response is the JSON text of an object with the two
    members [message] and [requestId]. *)
Lemma parse_expected_response (request : Request) :
  is_requestId (context_requestId request) = true ->
  JSON.parse (expected_response request)
  = inr (JObject
           [ (units "message", JString (units "Message sent to queue successfully"));
             (units "requestId", JString (units (context_requestId request))) ]).
Proof.
  intros Hid. destruct (requestId_facts _ Hid) as (_ & _ & _ & Hplain).
  unfold JSON.parse, expected_response.
  rewrite !list_ascii_of_string_app.
  assert (Hpre : exists st,
            JSON.steps (JSON.mkState JSON.SStart JSON.PValue [])
              (list_ascii_of_string
                 (dq "{'message':'Message sent to queue successfully','requestId':'"))
            = Some (JSON.mkState (JSON.SString []) JSON.PValue st)
            /\ st = [ JSON.FObject
                       [ (units "message", JString (units "Message sent to queue successfully")) ]
                       (Some (units "requestId")) ]).
  { eexists. split; [vm_compute; reflexivity | reflexivity]. }
  destruct Hpre as (st & Hpre & ->).
  rewrite (run_steps _ _ _ _ _ Hpre).
  rewrite (run_steps _ _ _ _ _ (steps_plain _ _ _ _ Hplain)).
  rewrite app_nil_r. cbn. rewrite rev_involutive. reflexivity.
Qed.

(** C8. A [POST] to [/api/sample-lambda-1] or [/api/sample-lambda-2] that
    the queue service answers with success returns status 200 and a body
    that is the JSON object [{ message, requestId }]: [message] is a fixed
    text and [requestId] is the request id of the inbound request. The
    response is fixed by the request id alone: whatever body was submitted
    and whatever the queue service answered, it is the same, so it holds
    nothing of a processing result. *)
Theorem successful_call_returns_acknowledgment
    (request : Request) (channel backend_body : string) :
  is_requestId (context_requestId request) = true ->
  method request = "POST" ->
  path request = ["api"; channel] ->
  channel = "sample-lambda-1" \/ channel = "sample-lambda-2" ->
  exists body,
    respond root request "200" backend_body = Some (mkHttpResponse "200" body)
    /\ body = expected_response request
    /\ JSON.parse body
       = inr (JObject
                [ (units "message", JString (units "Message sent to queue successfully"));
                  (units "requestId", JString (units (context_requestId request))) ])
    /\ (forall other other_backend_body,
          method other = "POST" ->
          path other = path request ->
          context_requestId other = context_requestId request ->
          respond root other "200" other_backend_body
          = Some (mkHttpResponse "200" body)).
Proof.
  intros Hid Hmethod Hpath Hchannel.
  assert (Hrespond : forall other other_backend_body,
            method other = "POST" ->
            path other = path request ->
            context_requestId other = context_requestId request ->
            respond root other "200" other_backend_body
            = Some (mkHttpResponse "200" (expected_response request))).
  { intros other other_body Hm Hp Hr. unfold respond.
    rewrite Hpath in Hp.
    destruct Hchannel as [->| ->].
    - rewrite (find_method_post1 _ Hm Hp). cbn -[render].
      unfold render, expected_response. cbn. rewrite Hr. reflexivity.
    - rewrite (find_method_post2 _ Hm Hp). cbn -[render].
      unfold render, expected_response. cbn. rewrite Hr. reflexivity. }
  exists (expected_response request).
  split; [apply Hrespond; auto|]. split; [reflexivity|].
  split; [exact (parse_expected_response request Hid) | exact Hrespond].
Qed.

Lemma successful_call_returns_acknowledgment_witness :
  respond root example_request "200" "<SendMessageResponse/>"
  = Some (mkHttpResponse "200"
            (dq "{'message':'Message sent to queue successfully','requestId':'c6af9ac6-7b61-11e6-9a41-93e8deadbeef'}")).
Proof.
  destruct (successful_call_returns_acknowledgment example_request "sample-lambda-2"
              "<SendMessageResponse/>")
    as (body & Hrespond & Hbody & _);
    [reflexivity | reflexivity | reflexivity | right; reflexivity |].
  rewrite Hrespond, Hbody. reflexivity.
Defined.

End GatewayClaims.

(* ===================================================================== *)
(** ** The embedding at work *)
(* ===================================================================== *)

Section Examples.
Import JS Runtime Lambda2 Batch Cdk BackendStack Gateway QueueModel.

Example parse_hello :
  JSON.parse (body hello) = inr (JObject [ (units "message", JString (units "Hello World")) ]).
Proof. reflexivity. Qed.

Example parse_malformed :
  JSON.parse (body malformed)
  = inl (mkError "SyntaxError" "Unexpected token o in JSON at position 1").
Proof. reflexivity. Qed.

Example parse_truncated :
  JSON.parse "[1, 2" = inl (mkError "SyntaxError" "Unexpected end of JSON input").
Proof. reflexivity. Qed.

Example parse_escape :
  JSON.parse (dq "['a\u00e9\n']") = inr (JArray [ JString [97; 233; 10]%N ]).
Proof. reflexivity. Qed.

Example slice_last_six : slice (messageId hello) (-6) = "abcdef".
Proof. reflexivity. Qed.

Example slice_short : slice "id-3" (-6) = "id-3".
Proof. reflexivity. Qed.

Example toISOString_epoch : toISOString 0 = "1970-01-01T00:00:00.000Z".
Proof. reflexivity. Qed.

Example toISOString_recent : toISOString 1700000000123 = "2023-11-14T22:13:20.123Z".
Proof. reflexivity. Qed.

Example toISOString_leap_day : toISOString 951782400000 = "2000-02-29T00:00:00.000Z".
Proof. reflexivity. Qed.

Example handler_mixed_batch :
  fst (Lambda2.handler (mkEvent [hello; malformed; list_body]) world0)
  = Normal (Failures [ mkBatchItemFailure (Some (messageId malformed)) ]).
Proof. vm_compute. reflexivity. Qed.

Example handler_source_attribute :
  match fst (process_records [hello] world0) with
  | Normal [Processed processedData] =>
      source processedData = "API-Gateway"
      /\ requestId processedData = "unknown"
      /\ specialField (enhanced processedData) = "enhanced-abcdef"
      /\ processingTime processedData = "2023-11-14T22:13:20.000Z"
      /\ timestamp (enhanced processedData) = 1700000000101
  | _ => False
  end.
Proof. vm_compute. repeat split. Qed.

Example handler_console :
  map fst (console (snd (Lambda2.handler (mkEvent [hello; malformed]) world0)))
  = [Log; Log; Log; Log; Log; Err; Log].
Proof. reflexivity. Qed.

Example responseTemplate_is_the_object :
  JSON.parse responseTemplate
  = inr (JObject
           [ (units "message", JString (units "Message sent to queue successfully"));
             (units "requestId", JString (units "$context.requestId")) ]).
Proof. reflexivity. Qed.

Example urlEncode_example : urlEncode "a b*c~d&e=f" = "a+b*c%7Ed%26e%3Df".
Proof. reflexivity. Qed.

Example other_content_type_is_not_mapped :
  integration_request sqsIntegration1
    (mkRequest "POST" ["api"; "sample-lambda-1"] "text/plain" "x" "1f") = None.
Proof. reflexivity. Qed.

Example no_get_method :
  find_method root (mkRequest "GET" ["api"; "sample-lambda-1"] "application/json" "x" "1f")
  = None.
Proof. reflexivity. Qed.

Example three_failures_then_dead_letter :
  run (mkConfig 3 60 345600 1209600) (failing_run 3 ++ [Redrive]) (enqueued 0)
  = Some (mkMessage DeadLetter Visible 3 3 0 30).
Proof. reflexivity. Qed.

Example no_fourth_delivery :
  run (mkConfig 3 60 345600 1209600) (failing_run 3 ++ [Tick 10; Deliver]) (enqueued 0) = None.
Proof. reflexivity. Qed.

Example acknowledged_is_deleted :
  run (mkConfig 3 60 345600 1209600) [Deliver; Acknowledge] (enqueued 0)
  = Some (mkMessage Deleted Visible 1 0 0 0).
Proof. reflexivity. Qed.

Example queue1_config :
  config_of example_defaults queue1 = Some (mkConfig 3 60 345600 1209600).
Proof. reflexivity. Qed.

End Examples.

(* ===================================================================== *)
(** ** More on the batch consumer *)
(* ===================================================================== *)

Section HandlerEffects.
Import JS Runtime Lambda2 Batch Effects.

Local Ltac unfold_monad :=
  unfold bind, ret, throw, try_catch, console_log, console_error, Date_now,
    await_timeout, JSON_parse.

(** One iteration on a record whose body does not parse: two console
    lines, no clock reading, no timer. *)
Lemma iteration_failed (results : list Result) (record : SQSRecord) (error : Error) w :
  JSON.parse (body record) = inl error ->
  iteration results record w
  = (Normal (results ++ [Failed (messageId record) (message error)]),
     mkWorld (clock w) (reads w)
       (console w
          ++ [ (Log, [Text ("Processing message: " +:+ messageId record)]);
               (Err, [Text ("Error processing message " +:+ messageId record +:+ ":");
                      Thrown error]) ])
       (waited w)).
Proof.
  intros Hparse. unfold iteration, try_block. unfold_monad. rewrite Hparse. cbn.
  rewrite <- app_assoc. reflexivity.
Qed.

(** One iteration on a record whose body parses: three console lines, two
    clock readings, one timer of 100 ms. *)
Lemma iteration_processed (results : list Result) (record : SQSRecord) (value : Value) w :
  JSON.parse (body record) = inr value ->
  let processedData :=
    processed_data record value (clock w (reads w)) (clock w (S (reads w))) in
  iteration results record w
  = (Normal (results ++ [Processed processedData]),
     mkWorld (clock w) (S (S (reads w)))
       (console w
          ++ [ (Log, [Text ("Processing message: " +:+ messageId record)]);
               (Log, [Text "Message body:"; Parsed value]);
               (Log, [Text "Enhanced processing completed:"; Object processedData]) ])
       (waited w ++ [100])).
Proof.
  intros Hparse. unfold iteration, try_block. unfold_monad. rewrite Hparse. cbn.
  rewrite <- !app_assoc. reflexivity.
Qed.


Lemma succeeded_failed_length (records : list SQSRecord) :
  (length (succeeded_records records) + length (failed_records records)
   = length records)%nat.
Proof.
  unfold succeeded_records, failed_records.
  induction records as [|record records IH]; [reflexivity|].
  rewrite !filter_cons.
  destruct (transformation_fails record); repeat case_decide; try congruence;
    cbn [length]; lia.
Qed.

Lemma records_cons_failed (record : SQSRecord) (records : list SQSRecord) :
  transformation_fails record = true ->
  succeeded_records (record :: records) = succeeded_records records
  /\ failed_records (record :: records) = record :: failed_records records.
Proof.
  intros Hf. unfold succeeded_records, failed_records. rewrite !filter_cons.
  repeat case_decide; try congruence. split; reflexivity.
Qed.

Lemma records_cons_succeeded (record : SQSRecord) (records : list SQSRecord) :
  transformation_fails record = false ->
  succeeded_records (record :: records) = record :: succeeded_records records
  /\ failed_records (record :: records) = failed_records records.
Proof.
  intros Hf. unfold succeeded_records, failed_records. rewrite !filter_cons.
  repeat case_decide; try congruence. split; reflexivity.
Qed.

Lemma error_lines_app (a b : list (Level * list Console)) :
  length (error_lines (a ++ b))
  = (length (error_lines a) + length (error_lines b))%nat.
Proof. unfold error_lines. rewrite filter_app, length_app. reflexivity. Qed.

(** The whole loop: the entries of [results], and what the world has seen
    of it. *)
Lemma loop_effects (records : list SQSRecord) :
  forall acc w,
  exists results w',
    for_of records iteration acc w = (Normal (acc ++ results), w')
    /\ Forall2 entry_of records results
    /\ Forall2 built_from records results
    /\ clock w' = clock w
    /\ reads w' = (reads w + 2 * length (succeeded_records records))%nat
    /\ waited w' = waited w ++ repeat 100 (length (succeeded_records records))
    /\ (exists added,
          console w' = console w ++ added
          /\ length added
             = (3 * length (succeeded_records records)
                + 2 * length (failed_records records))%nat
          /\ length (error_lines added) = length (failed_records records))
    /\ map (fun pd => timestamp (enhanced pd)) (processed results)
       = map (fun j => clock w (reads w + 2 * j + 1)%nat)
           (seq 0 (length (succeeded_records records)))
    /\ map processingTime (processed results)
       = map (fun j => toISOString (clock w (reads w + 2 * j)%nat))
           (seq 0 (length (succeeded_records records))).
Proof.
  induction records as [|record records IH]; intros acc w.
  - exists [], w. cbn. rewrite !app_nil_r, Nat.add_0_r.
    repeat split; try constructor. exists []. rewrite app_nil_r. repeat split.
  - cbn [for_of]. unfold bind.
    destruct (JSON.parse (body record)) as [error|value] eqn:Hparse.
    + rewrite (iteration_failed acc record error w Hparse).
      destruct (records_cons_failed record records) as [-> ->];
        [unfold transformation_fails; rewrite Hparse; reflexivity|].
      match goal with |- context [for_of records iteration ?a ?w1] =>
        destruct (IH a w1) as (rest & w' & Hrun & Hall & Hbuilt & Hclock & Hreads & Hwaited
                                 & (added & Hconsole & Hlen & Herr) & Hstamps & Htimes)
      end.
      cbn [clock reads waited console] in *.
      exists (Failed (messageId record) (message error) :: rest), w'.
      rewrite Hrun, <- app_assoc. split; [reflexivity|].
      split; [constructor; [unfold entry_of; rewrite Hparse; reflexivity | exact Hall]|].
      split; [constructor; [unfold built_from; rewrite Hparse; reflexivity | exact Hbuilt]|].
      split; [exact Hclock|]. split; [exact Hreads|]. split; [exact Hwaited|].
      split; [|split; [exact Hstamps | exact Htimes]].
      eexists. split; [rewrite Hconsole, <- app_assoc; reflexivity|].
      rewrite error_lines_app, !length_app, Hlen, Herr. cbn [length]. split; [lia|].
      reflexivity.
    + pose proof (iteration_processed acc record value w Hparse) as Hit.
      cbv zeta in Hit. rewrite Hit. clear Hit.
      destruct (records_cons_succeeded record records) as [-> ->];
        [unfold transformation_fails; rewrite Hparse; reflexivity|].
      match goal with |- context [for_of records iteration ?a ?w1] =>
        destruct (IH a w1) as (rest & w' & Hrun & Hall & Hbuilt & Hclock & Hreads & Hwaited
                                 & (added & Hconsole & Hlen & Herr) & Hstamps & Htimes)
      end.
      cbn [clock reads waited console] in *.
      eexists (Processed _ :: rest), w'.
      rewrite Hrun, <- app_assoc. split; [reflexivity|].
      split; [constructor; [unfold entry_of; rewrite Hparse; eauto | exact Hall]|].
      split; [constructor; [unfold built_from; rewrite Hparse; eauto | exact Hbuilt]|].
      split; [exact Hclock|]. cbn [length].
      split; [rewrite Hreads; lia|].
      split; [rewrite Hwaited, <- app_assoc; reflexivity|].
      split; [|split].
      * eexists. split; [rewrite Hconsole, <- app_assoc; reflexivity|].
        rewrite error_lines_app, !length_app, Hlen, Herr. cbn [length]. split; [lia|].
        reflexivity.
      * cbn [processed omap map seq]. unfold processed in Hstamps. cbn.
        f_equal; [f_equal; lia|].
        rewrite Hstamps, <- seq_shift, map_map.
        apply map_ext. intros j. f_equal. lia.
      * cbn [processed omap map seq]. unfold processed in Htimes. cbn -[toISOString].
        f_equal; [rewrite Nat.add_0_r; reflexivity|].
        rewrite Htimes, <- seq_shift, map_map.
        apply map_ext. intros j. do 2 f_equal. lia.
Qed.


(** The value the handler returns, written out: the failure list when a
    record failed, the success object otherwise. *)
Lemma handler_run (event : SQSEvent) w :
  exists results w',
    handler event w
    = (Normal
         (match failed_records (Records event) with
          | [] => Success 200 (length (Records event)) results
          | failed =>
              Failures (map (fun record => mkBatchItemFailure (Some (messageId record))) failed)
          end), w')
    /\ Forall2 built_from (Records event) results
    /\ clock w' = clock w
    /\ reads w' = (reads w + 2 * length (succeeded_records (Records event)))%nat
    /\ waited w' = waited w ++ repeat 100 (length (succeeded_records (Records event)))
    /\ (exists middle,
          console w'
          = console w
              ++ (Log, [Text "Event:"; Json event]) :: middle
              ++ [ (Log, [Text ("Processed " +:+ decimal (length (Records event))
                                +:+ " messages from sample-lambda-2")]) ]
          /\ length middle
             = (3 * length (succeeded_records (Records event))
                + 2 * length (failed_records (Records event)))%nat
          /\ length (error_lines middle) = length (failed_records (Records event)))
    /\ map (fun pd => timestamp (enhanced pd)) (processed results)
       = map (fun j => clock w (reads w + 2 * j + 1)%nat)
           (seq 0 (length (succeeded_records (Records event))))
    /\ map processingTime (processed results)
       = map (fun j => toISOString (clock w (reads w + 2 * j)%nat))
           (seq 0 (length (succeeded_records (Records event)))).
Proof.
  unfold handler, process_records, bind, console_log. cbn beta iota.
  match goal with |- context [for_of _ iteration [] ?w1] =>
    destruct (loop_effects (Records event) [] w1)
      as (results & w1' & Hrun & Hall & Hbuilt & Hclock & Hreads & Hwaited
          & (added & Hconsole & Hlen & Herr) & Hstamps & Htimes)
  end.
  cbn [clock reads waited console app] in *. rewrite Hrun. cbn beta iota zeta.
  pose proof (failures_of_entries _ _ Hall) as Hfail.
  pose proof (Forall2_length _ _ _ Hall) as Hn.
  rewrite <- Hn.
  exists results.
  exists (mkWorld (clock w1') (reads w1')
            (console w1'
               ++ [ (Log, [Text ("Processed " +:+ decimal (length (Records event))
                                 +:+ " messages from sample-lambda-2")]) ])
            (waited w1')).
  split.
  - destruct (failed_records (Records event)) as [|record failed] eqn:Hfailed.
    + destruct (filter _ results); [|discriminate Hfail]. reflexivity.
    + destruct (filter _ results) as [|failure failures] eqn:Hfilter; [discriminate Hfail|].
      cbn [length Nat.ltb Nat.leb]. unfold ret.
      rewrite <- (map_map get_itemIdentifier mkBatchItemFailure), Hfail, map_map.
      reflexivity.
  - cbn [clock reads waited console].
    split; [exact Hbuilt|]. split; [exact Hclock|]. split; [exact Hreads|].
    split; [exact Hwaited|]. split; [|split; [exact Hstamps | exact Htimes]].
    exists added. rewrite Hconsole, <- !app_assoc. cbn [app].
    split; [reflexivity|]. split; [exact Hlen | exact Herr].
Qed.


Lemma drop_chars_spec (n : nat) :
  forall s, exists front,
    s = front +:+ drop_chars n s
    /\ String.length (drop_chars n s) = (String.length s - n)%nat.
Proof.
  induction n as [|n IH]; intros s.
  - exists EmptyString. cbn. split; [reflexivity | lia].
  - destruct s as [|c s]; [exists EmptyString; split; reflexivity|].
    destruct (IH s) as (front & Heq & Hlen).
    exists (String c front). cbn [drop_chars String.length]. split; [|exact Hlen].
    change (String c front +:+ drop_chars n s) with (String c (front +:+ drop_chars n s)).
    rewrite <- Heq. reflexivity.
Qed.

(** [s.slice(-6)] is the end of [s]: its last six characters, or all of [s]
    when it has fewer. *)
Lemma slice_last_six_spec (s : string) :
  exists front,
    s = front +:+ slice s (-6)
    /\ String.length (slice s (-6)) = Nat.min 6 (String.length s).
Proof.
  unfold slice. cbn [Z.ltb Z.compare].
  destruct (drop_chars_spec (Z.to_nat (Z.max (Z.of_nat (String.length s) + -6) 0)) s)
    as (front & Heq & Hlen).
  exists front. split; [exact Heq|]. rewrite Hlen. lia.
Qed.

(** X1. The handler always returns one of two values, decided by whether
    any record failed: with no failed record, the success object with status
    200, the number of records and, for each record in order, the processed
    entry built from it; otherwise only the failure list, one defined
    identifier per failed record in batch order, without the results of the
    records that succeeded. *)
Theorem handler_returns_failures_or_success (event : SQSEvent) w :
  exists response w',
    Lambda2.handler event w = (Normal response, w')
    /\ match failed_records (Records event) with
       | [] =>
           exists results,
             response = Success 200 (length (Records event)) results
             /\ Forall2
                  (fun record result =>
                     exists value now stamp,
                       JSON.parse (body record) = inr value
                       /\ result = Processed (processed_data record value now stamp))
                  (Records event) results
       | failed =>
           response
           = Failures (map (fun record => mkBatchItemFailure (Some (messageId record))) failed)
           /\ (0 < length (reported_failures response))%nat
       end.
Proof.
  destruct (handler_run event w) as (results & w' & Hret & Hbuilt & _).
  eexists _, w'. split; [exact Hret|].
  destruct (failed_records (Records event)) as [|record failed] eqn:Hfailed.
  - exists results. split; [reflexivity|].
    assert (Hok : Forall (fun record => transformation_fails record = false) (Records event)).
    { apply Forall_forall. intros record Hin.
      destruct (transformation_fails record) eqn:Hf; [|reflexivity].
      assert (Hmem : record ∈ failed_records (Records event))
        by (apply list_elem_of_filter; auto).
      rewrite Hfailed in Hmem. inversion Hmem. }
    clear Hret Hfailed.
    induction Hbuilt as [|record result records results Hentry _ IH]; constructor.
    + apply Forall_cons in Hok as [Hf _].
      unfold built_from, transformation_fails in *.
      destruct (JSON.parse (body record)) as [|value]; [discriminate|].
      destruct Hentry as (now & stamp & ->). eauto.
    + apply IH. apply Forall_cons in Hok as [_ Hok]. exact Hok.
  - split; [reflexivity|]. cbn. lia.
Qed.

(** The identifiers a run reports, whatever the world it runs in. *)
Lemma handler_reported (event : SQSEvent) w :
  exists response w',
    Lambda2.handler event w = (Normal response, w')
    /\ reported_failures response
       = map (fun record => Some (messageId record)) (failed_records (Records event)).
Proof.
  destruct (handler_run event w) as (results & w' & Hret & _).
  eexists _, w'. split; [exact Hret|].
  destruct (failed_records (Records event)); [reflexivity|].
  cbn [reported_failures]. rewrite map_map. reflexivity.
Qed.

(** X2. Batching does not change what is reported: the identifiers
    reported for two batches delivered as one are those reported for the
    first followed by those reported for the second, whatever the worlds the
    three invocations run in. *)
Theorem appended_batches_report_both (first second : list SQSRecord) w w1 w2 :
  exists whole part1 part2 w' w1' w2',
    Lambda2.handler (mkEvent (first ++ second)) w = (Normal whole, w')
    /\ Lambda2.handler (mkEvent first) w1 = (Normal part1, w1')
    /\ Lambda2.handler (mkEvent second) w2 = (Normal part2, w2')
    /\ reported_failures whole = reported_failures part1 ++ reported_failures part2.
Proof.
  destruct (handler_reported (mkEvent (first ++ second)) w) as (whole & w' & H & Hr).
  destruct (handler_reported (mkEvent first) w1) as (part1 & w1' & H1 & Hr1).
  destruct (handler_reported (mkEvent second) w2) as (part2 & w2' & H2 & Hr2).
  exists whole, part1, part2, w', w1', w2'. repeat split; try assumption.
  rewrite Hr, Hr1, Hr2. cbn [Records]. unfold failed_records.
  rewrite filter_app, map_app. reflexivity.
Qed.

(** X3. Redelivery does not cure a failed record: when exactly the
    reported records are delivered again, every one of them is reported
    again, in the same order; and the records that were not reported, delivered
    on their own, are all processed. *)
Theorem redelivered_failures_fail_again (records : list SQSRecord) w w1 w2 :
  exists response again w' w1' results w2',
    Lambda2.handler (mkEvent records) w = (Normal response, w')
    /\ Lambda2.handler (mkEvent (failed_records records)) w1 = (Normal again, w1')
    /\ reported_failures again = reported_failures response
    /\ length (reported_failures again) = length (failed_records records)
    /\ Lambda2.handler (mkEvent (succeeded_records records)) w2
       = (Normal (Success 200 (length (succeeded_records records)) results), w2').
Proof.
  destruct (handler_reported (mkEvent records) w) as (response & w' & H & Hr).
  destruct (handler_reported (mkEvent (failed_records records)) w1) as (again & w1' & H1 & Hr1).
  destruct (handler_success (mkEvent (succeeded_records records)) w2)
    as (results & w2' & H2 & _).
  { cbn [Records]. unfold succeeded_records. apply Forall_forall. intros record Hin.
    apply list_elem_of_filter in Hin as [Hf _]. exact Hf. }
  exists response, again, w', w1', results, w2'.
  split; [exact H|]. split; [exact H1|].
  assert (Hidem : failed_records (failed_records records) = failed_records records).
  { unfold failed_records. rewrite list_filter_filter.
    apply filter_agree. intros record _. tauto. }
  cbn [Records] in *. rewrite Hidem in Hr1.
  split; [rewrite Hr, Hr1; reflexivity|].
  split; [rewrite Hr1, length_map; reflexivity | exact H2].
Qed.


(** X4. The processed entry of a record whose body parses carries the
    record's [messageId] and [receiptHandle], the parsed body under [data],
    the constant [processedBy], the delay 100 and a [specialField] that is
    [enhanced-] followed by the end of the message id (its last six
    characters, or the whole id when shorter). [source] and [requestId] are
    the string values of the attributes [Source] and [RequestId]; each falls
    back to [unknown] when the record has no attributes, no such attribute,
    no string value, or an empty one. *)
Theorem processed_entry_fields (records : list SQSRecord) w (i : nat) (record : SQSRecord) :
  records !! i = Some record ->
  transformation_fails record = false ->
  exists results w' pd,
    process_records records w = (Normal results, w')
    /\ results !! i = Some (Processed pd)
    /\ pd_messageId pd = messageId record
    /\ pd_receiptHandle pd = receiptHandle record
    /\ JSON.parse (body record) = inr (data pd)
    /\ processedBy pd = "sample-lambda-2"
    /\ processingDelay (enhanced pd) = 100
    /\ (exists front tail,
          messageId record = front +:+ tail
          /\ String.length tail = Nat.min 6 (String.length (messageId record))
          /\ specialField (enhanced pd) = "enhanced-" +:+ tail)
    /\ (forall key field,
          (key = "Source" /\ field = source pd)
          \/ (key = "RequestId" /\ field = requestId pd) ->
          (messageAttributes record = None -> field = "unknown")
          /\ (forall attributes,
                messageAttributes record = Some attributes ->
                (attributes !! key = None -> field = "unknown")
                /\ (forall attribute,
                      attributes !! key = Some attribute ->
                      (stringValue attribute = None -> field = "unknown")
                      /\ (stringValue attribute = Some EmptyString -> field = "unknown")
                      /\ (forall text,
                            stringValue attribute = Some text ->
                            text <> EmptyString -> field = text)))).
Proof.
  intros Hi Hok.
  destruct (loop_effects records [] w) as (results & w' & Hrun & _ & Hbuilt & _).
  destruct (Forall2_lookup_l _ _ _ _ _ Hbuilt Hi) as (result & Hres & Hentry).
  unfold built_from, transformation_fails in *.
  destruct (JSON.parse (body record)) as [|value] eqn:Hparse; [discriminate|].
  destruct Hentry as (now & stamp & ->).
  exists results, w', (processed_data record value now stamp).
  split; [exact Hrun|]. split; [exact Hres|].
  split; [reflexivity|]. split; [reflexivity|]. split; [reflexivity|].
  split; [reflexivity|]. split; [reflexivity|]. split.
  - destruct (slice_last_six_spec (messageId record)) as (front & Heq & Hlen).
    exists front, (slice (messageId record) (-6)). repeat split; assumption.
  - assert (Hcases : forall key,
              (messageAttributes record = None ->
               or_else (attribute_string record key) "unknown" = "unknown")
              /\ (forall attributes,
                    messageAttributes record = Some attributes ->
                    (attributes !! key = None ->
                     or_else (attribute_string record key) "unknown" = "unknown")
                    /\ (forall attribute,
                          attributes !! key = Some attribute ->
                          (stringValue attribute = None ->
                           or_else (attribute_string record key) "unknown" = "unknown")
                          /\ (stringValue attribute = Some EmptyString ->
                              or_else (attribute_string record key) "unknown" = "unknown")
                          /\ (forall text,
                                stringValue attribute = Some text ->
                                text <> EmptyString ->
                                or_else (attribute_string record key) "unknown" = text)))).
    { intros key. unfold attribute_string. split.
      - intros ->. reflexivity.
      - intros attributes ->. split.
        + intros ->. reflexivity.
        + intros attribute ->. split; [|split].
          * intros ->. reflexivity.
          * intros ->. reflexivity.
          * intros text -> Htext. destruct text; [contradiction | reflexivity]. }
    intros key field [[-> ->]|[-> ->]]; cbn [source requestId processed_data];
      apply Hcases.
Qed.

(** A record with a [Source] attribute and no [RequestId]. *)
Lemma processed_entry_fields_witness :
  exists results w' pd,
    process_records [malformed; hello] world0 = (Normal results, w')
    /\ results !! 1%nat = Some (Processed pd)
    /\ pd_messageId pd = messageId hello.
Proof.
  destruct (processed_entry_fields [malformed; hello] world0 1 hello)
    as (results & w' & pd & Hrun & Hres & Hid & _); [reflexivity | reflexivity |].
  exists results, w', pd. repeat split; assumption.
Defined.

(** X5. What a run writes to the console: the event first, then three
    lines for each processed record and two for each failed one, the second
    of them through [console.error], and finally the line with the number of
    records. Nothing already on the console is touched, and the number of
    [console.error] lines is the number of failed records. *)
Theorem handler_console_lines (event : SQSEvent) w :
  exists response w' middle,
    Lambda2.handler event w = (Normal response, w')
    /\ console w'
       = console w
           ++ (Log, [Text "Event:"; Json event]) :: middle
           ++ [ (Log, [Text ("Processed " +:+ decimal (length (Records event))
                             +:+ " messages from sample-lambda-2")]) ]
    /\ length middle
       = (3 * length (succeeded_records (Records event))
          + 2 * length (failed_records (Records event)))%nat
    /\ length (error_lines middle) = length (failed_records (Records event))
    /\ length (error_lines (console w'))
       = (length (error_lines (console w)) + length (failed_records (Records event)))%nat.
Proof.
  destruct (handler_run event w)
    as (results & w' & Hret & _ & _ & _ & _ & (middle & Hconsole & Hlen & Herr) & _).
  eexists _, w', middle. split; [exact Hret|]. split; [exact Hconsole|].
  split; [exact Hlen|]. split; [exact Herr|].
  rewrite Hconsole.
  change ((Log, [Text "Event:"; Json event]) :: middle ++ ?l)
    with ([(Log, [Text "Event:"; Json event])] ++ middle ++ l).
  rewrite !error_lines_app, Herr.
  change (length (error_lines [(Log, [Text "Event:"; Json event])])) with 0%nat.
  match goal with |- context [error_lines [?line]] =>
    change (length (error_lines [line])) with 0%nat end.
  lia.
Qed.

Lemma total_app_repeat (l : list Z) (x : Z) (n : nat) :
  total (l ++ repeat x n) = total l + x * Z.of_nat n.
Proof.
  induction l as [|y l IH]; cbn [app total].
  - induction n as [|n IHn]; cbn [repeat total]; lia.
  - rewrite IH. lia.
Qed.

(** X6. A run leaves the clock as it is and reads it exactly twice for each
    processed record and never for a failed one; it waits for one timer of
    100 ms for each processed record and none for a failed one. *)
Theorem handler_clock_and_timers (event : SQSEvent) w :
  exists response w',
    Lambda2.handler event w = (Normal response, w')
    /\ clock w' = clock w
    /\ reads w' = (reads w + 2 * length (succeeded_records (Records event)))%nat
    /\ waited w' = waited w ++ repeat 100 (length (succeeded_records (Records event)))
    /\ total (waited w') = total (waited w) + 100 * Z.of_nat (length (succeeded_records (Records event))).
Proof.
  destruct (handler_run event w)
    as (results & w' & Hret & _ & Hclock & Hreads & Hwaited & _).
  eexists _, w'. split; [exact Hret|]. split; [exact Hclock|].
  split; [exact Hreads|]. split; [exact Hwaited|].
  rewrite Hwaited. apply total_app_repeat.
Qed.


(** X7. For a batch within the batch size declared for the event source of
    the function that runs this handler, the timers one invocation waits for
    add up to at most 100 ms times the batch size, which is below the
    function's declared timeout. *)
Theorem batch_wait_within_timeout (event : SQSEvent) w (source : Cdk.SqsEventSource) :
  In (BackendStack.lambdaFunction2, source) BackendStack.eventSources ->
  Z.of_nat (length (Records event)) <= Cdk.batchSize source ->
  exists response w' limit,
    Lambda2.handler event w = (Normal response, w')
    /\ Cdk.code BackendStack.lambdaFunction2 = "lambda/sample-lambda-2"
    /\ Cdk.timeout BackendStack.lambdaFunction2 = Some limit
    /\ total (waited w') - total (waited w) <= 100 * Cdk.batchSize source
    /\ 100 * Cdk.batchSize source < 1000 * Cdk.toSeconds limit.
Proof.
  intros Hsource Hsize.
  destruct (handler_run event w)
    as (results & w' & Hret & _ & _ & _ & Hwaited & _).
  eexists _, w', (Cdk.Duration_seconds 30). split; [exact Hret|].
  split; [reflexivity|]. split; [reflexivity|].
  pose proof (succeeded_failed_length (Records event)) as Hsplit.
  rewrite Hwaited, total_app_repeat.
  destruct Hsource as [Heq|[Heq|[]]]; inversion Heq; subst source;
    cbn [Cdk.batchSize Cdk.toSeconds Cdk.Duration_seconds] in *; lia.
Qed.

Lemma batch_wait_within_timeout_witness :
  exists response w',
    Lambda2.handler (mkEvent [hello; malformed; list_body]) world0 = (Normal response, w')
    /\ total (waited w') - total (waited world0) <= 1000.
Proof.
  destruct (batch_wait_within_timeout (mkEvent [hello; malformed; list_body]) world0
              (Cdk.mkSqsEventSource BackendStack.queue2 10 (Cdk.Duration_seconds 5) true))
    as (response & w' & limit & Hret & _ & _ & Hwait & _).
  - right. left. reflexivity.
  - cbn. lia.
  - exists response, w'. split; [exact Hret | exact Hwait].
Defined.

Lemma sorted_readings (f : nat -> Z) (n : nat) :
  (forall i j, (i <= j)%nat -> f i <= f j) ->
  forall start, StronglySorted Z.le (map f (seq start n)).
Proof.
  intros Hmono. induction n as [|n IH]; intros start; cbn [seq map]; constructor.
  - apply IH.
  - apply Forall_forall. intros x Hx.
    apply list_elem_of_fmap in Hx as (k & -> & Hk).
    apply list_elem_of_In, in_seq in Hk. apply Hmono. lia.
Qed.

(** X8. Records are processed in batch order, and the clock shows it: the
    k-th processed record (counting from 0) gets as [processingTime] the
    rendering of the clock reading number 2k after the start of the run, and
    as [timestamp] the reading number 2k+1. So with a clock that never runs
    backwards the timestamps of the processed entries never decrease along
    [results]. *)
Theorem timestamps_follow_the_clock (records : list SQSRecord) w :
  exists results w',
    process_records records w = (Normal results, w')
    /\ map (fun pd => timestamp (enhanced pd)) (processed results)
       = map (fun k => clock w (reads w + 2 * k + 1)%nat)
           (seq 0 (length (succeeded_records records)))
    /\ map processingTime (processed results)
       = map (fun k => toISOString (clock w (reads w + 2 * k)%nat))
           (seq 0 (length (succeeded_records records)))
    /\ (monotone (clock w) ->
        StronglySorted Z.le (map (fun pd => timestamp (enhanced pd)) (processed results))).
Proof.
  destruct (loop_effects records [] w)
    as (results & w' & Hrun & _ & _ & _ & _ & _ & _ & Hstamps & Htimes).
  exists results, w'. split; [exact Hrun|]. split; [exact Hstamps|].
  split; [exact Htimes|].
  intros Hmono. rewrite Hstamps. apply sorted_readings.
  intros i j Hij. apply Hmono. lia.
Qed.

Lemma timestamps_follow_the_clock_witness :
  exists results w',
    process_records [hello; malformed; list_body] world0 = (Normal results, w')
    /\ StronglySorted Z.le (map (fun pd => timestamp (enhanced pd)) (processed results)).
Proof.
  destruct (timestamps_follow_the_clock [hello; malformed; list_body] world0)
    as (results & w' & Hrun & _ & _ & Hsorted).
  exists results, w'. split; [exact Hrun|]. apply Hsorted.
  intros i j Hij. cbn. lia.
Defined.

End HandlerEffects.

(* ===================================================================== *)
(** ** More on the ingestion endpoint *)
(* ===================================================================== *)

Section IngestionFacts.
Import JS Cdk BackendStack Gateway Ingestion.

#[local] Arguments String.append !s1 s2 : simpl nomatch.










(** X10. The endpoint answers status 200 with the acknowledgment body
    whatever the queue service answered: the only integration response the
    stack declares has no selection pattern, so it is the one chosen for every
    backend status, an error status included. *)
Theorem endpoint_answers_200_for_every_backend_status
    (request : Request) (channel backend_status backend_body : string) :
  method request = "POST" ->
  path request = ["api"; channel] ->
  channel = "sample-lambda-1" \/ channel = "sample-lambda-2" ->
  respond root request backend_status backend_body
  = Some (mkHttpResponse "200" (expected_response request)).
Proof.
  intros Hmethod Hpath Hchannel. unfold respond.
  destruct Hchannel as [->| ->].
  - rewrite (find_method_post1 _ Hmethod Hpath). reflexivity.
  - rewrite (find_method_post2 _ Hmethod Hpath). reflexivity.
Qed.

Lemma endpoint_answers_200_for_every_backend_status_witness :
  respond root example_request "403" "<ErrorResponse/>"
  = Some (mkHttpResponse "200" (expected_response example_request)).
Proof.
  apply (endpoint_answers_200_for_every_backend_status example_request "sample-lambda-2");
    [reflexivity | reflexivity | right; reflexivity].
Defined.

(** X11. Only a [POST] to one of the two channel paths enqueues anything,
    and each channel writes to its own queue: [/api/sample-lambda-1] to
    [queue1], [/api/sample-lambda-2] to [queue2]. No call writes to a
    dead-letter queue. *)
Theorem only_channel_posts_enqueue (request : Request) (q : Queue) (action : SendMessage) :
  enqueue_call root request = Some (q, action) ->
  method request = "POST"
  /\ (path request = ["api"; "sample-lambda-1"] /\ q = queue1
      \/ path request = ["api"; "sample-lambda-2"] /\ q = queue2)
  /\ ~ In q deadLetterQueues.
Proof.
  unfold enqueue_call.
  destruct (find_method root request) as [m|] eqn:Hm; [|discriminate].
  apply find_method_cases in Hm as [Hmethod [[Hpath ->]|[Hpath ->]]];
    (destruct (integration_request _ request) as [form|]; [|discriminate]);
    (destruct (read_action form) as [read|]; [|discriminate]);
    intros H; inversion H; subst; (split; [exact Hmethod|]); (split; [auto|]);
    cbn; intros [Hq|[Hq|[]]]; discriminate Hq.
Qed.

Lemma only_channel_posts_enqueue_witness :
  method example_request = "POST"
  /\ path example_request = ["api"; "sample-lambda-2"].
Proof.
  destruct (only_channel_posts_enqueue example_request queue2
              (mkSendMessage (input_body example_request) (stamped example_request)))
    as (Hmethod & [[Hpath _]|[Hpath _]] & _).
  - reflexivity.
  - discriminate Hpath.
  - split; assumption.
Defined.

End IngestionFacts.

Section EndToEnd.
Import JS Runtime Lambda2 Batch Effects Ingestion.



End EndToEnd.

(* ===================================================================== *)
(** ** The distribution *)
(* ===================================================================== *)

Section FrontendFacts.
Import JS Cdk BackendStack Gateway Frontend.

#[local] Arguments String.append !s1 s2 : simpl nomatch.

(** A pattern that is only [*] matches every path. *)
Lemma matches_star (path : list ascii) :
  matches (list_ascii_of_string "*") path = true.
Proof.
  induction path as [|c path IH]; [reflexivity|].
  change (matches (list_ascii_of_string "*") (c :: path))
    with (matches [] (c :: path) || matches (list_ascii_of_string "*") path).
  rewrite IH. apply orb_true_r.
Qed.

Lemma matches_literal (c : ascii) (pattern path : list ascii) :
  (c =? "*")%char = false -> (c =? "?")%char = false ->
  matches (c :: pattern) path = true ->
  exists path', path = c :: path' /\ matches pattern path' = true.
Proof.
  intros Hstar Hany. cbn [matches]. rewrite Hstar, Hany.
  destruct path as [|c' path]; [discriminate|].
  intros H. apply andb_true_iff in H as [Hc Hrest].
  apply Ascii.eqb_eq in Hc. subst c'. eauto.
Qed.

Lemma path_matches_api_prefix (rest : string) :
  path_matches "/api/*" ("/api/" +:+ rest) = true.
Proof.
  unfold path_matches.
  change (matches (list_ascii_of_string "/api/*") (list_ascii_of_string ("/api/" +:+ rest)))
    with (matches (list_ascii_of_string "*") (list_ascii_of_string rest)).
  apply matches_star.
Qed.

Lemma path_matches_api_only (path : string) :
  path_matches "/api/*" path = true -> exists rest, path = "/api/" +:+ rest.
Proof.
  unfold path_matches. cbn [list_ascii_of_string]. intros H.
  apply matches_literal in H as (p1 & H1 & H); [|reflexivity|reflexivity].
  apply matches_literal in H as (p2 & H2 & H); [|reflexivity|reflexivity].
  apply matches_literal in H as (p3 & H3 & H); [|reflexivity|reflexivity].
  apply matches_literal in H as (p4 & H4 & H); [|reflexivity|reflexivity].
  apply matches_literal in H as (p5 & H5 & _); [|reflexivity|reflexivity].
  subst. exists (string_of_list_ascii p5).
  rewrite <- (string_of_list_ascii_of_string path), H1. reflexivity.
Qed.

Lemma api_prefix_behavior (rest : string) :
  behavior_for distribution ("/api/" +:+ rest) = apiBehavior.
Proof.
  unfold behavior_for. cbn [additionalBehaviors distribution find fst snd].
  rewrite path_matches_api_prefix. reflexivity.
Qed.

(** X13. The distribution sends a path to the API origin, uncached,
    exactly when the path starts with [/api/]; every other path, [/api]
    without the slash included, is served by the default behaviour from the
    bucket origin. *)
Theorem distribution_routes_by_api_prefix :
  (forall rest,
     behavior_for distribution ("/api/" +:+ rest) = apiBehavior
     /\ origin (behavior_for distribution ("/api/" +:+ rest)) = RestApiOrigin root
     /\ cachePolicy (behavior_for distribution ("/api/" +:+ rest)) = Some CACHING_DISABLED)
  /\ (forall path,
        (forall rest, path <> "/api/" +:+ rest) ->
        behavior_for distribution path = defaultBehavior distribution
        /\ origin (behavior_for distribution path) = S3BucketOrigin)
  /\ origin (behavior_for distribution "/api") = S3BucketOrigin
  /\ origin (behavior_for distribution "/index.html") = S3BucketOrigin.
Proof.
  split; [|split; [|split; reflexivity]].
  - intros rest. rewrite api_prefix_behavior. repeat split.
  - intros path Hnot. unfold behavior_for.
    cbn [additionalBehaviors distribution find fst snd].
    destruct (path_matches "/api/*" path) eqn:Hmatch.
    + apply path_matches_api_only in Hmatch as [rest ->]. exfalso. exact (Hnot rest eq_refl).
    + split; reflexivity.
Qed.

Lemma distribution_routes_by_api_prefix_witness :
  origin (behavior_for distribution "/static/app.js") = S3BucketOrigin.
Proof.
  refine (proj2 (proj1 (proj2 distribution_routes_by_api_prefix) "/static/app.js" _)).
  intros rest H. discriminate H.
Defined.



End FrontendFacts.

(* ===================================================================== *)
(** ** The test page *)
(* ===================================================================== *)

Section PageFacts.
Import JS Runtime Page.

Example stringify_example :
  stringify_testData "Test message from web UI for Sample Lambda 1" (toISOString 0)
  = dq "{'message':'Test message from web UI for Sample Lambda 1','timestamp':'1970-01-01T00:00:00.000Z'}".
Proof. reflexivity. Qed.

Example testLambda2_sent :
  innerHTML (snd (testLambda2 (browser (Resolved 200 "OK" (dq "{'message':'ok','requestId':'1f'}")))))
  = [ Calling "Sample Lambda 2";
      Sent "Sample Lambda 2"
        (JObject [ (units "message", JString (units "ok"));
                   (units "requestId", JString (units "1f")) ]) ].
Proof. reflexivity. Qed.

Example testLambda1_http_error :
  innerHTML (snd (testLambda1 (browser (Resolved 503 "Service Unavailable" "oops"))))
  = [ Calling "Sample Lambda 1";
      CallFailed "Sample Lambda 1" "HTTP 503: Service Unavailable" ].
Proof. reflexivity. Qed.


#[local] Arguments String.append !s1 s2 : simpl nomatch.








(** X15. A call of [testApi] never throws: it makes exactly one [fetch], a
    [POST] to the endpoint with a JSON content type and the stringified test
    data, shows [Calling] and then exactly one outcome. The outcome is the
    success view, with the parsed response, exactly when [fetch] resolved with
    a status from 200 to 299 and a body that is JSON; otherwise it is the
    failure view, with the message of the rejection, the text [HTTP status:
    statusText], or the message of the parse error. *)
Theorem testApi_settles (endpoint lambdaName : string) (b : Browser) :
  let call :=
    mkFetchCall endpoint "POST" [("Content-Type", "application/json")]
      (stringify_testData ("Test message from web UI for " +:+ lambdaName)
         (toISOString (now b))) in
  exists b',
    testApi endpoint lambdaName b = (Normal tt, b')
    /\ calls b' = calls b ++ [call]
    /\ innerHTML b'
       = innerHTML b
           ++ [ Calling lambdaName;
                match network b call with
                | Rejected error => CallFailed lambdaName (message error)
                | Resolved status statusText text =>
                    if ok status then
                      match JSON.parse text with
                      | inr data => Sent lambdaName data
                      | inl error => CallFailed lambdaName (message error)
                      end
                    else
                      CallFailed lambdaName
                        ("HTTP " +:+ decimal status +:+ ": " +:+ statusText)
                end ]
    /\ now b' = now b.
Proof.
  cbv zeta. unfold testApi, pbind, ptry, set_innerHTML, Date_toISOString, fetch.
  cbn [now network calls innerHTML].
  destruct (network b _) as [error|status statusText text].
  - eexists. split; [reflexivity|]. cbn [calls innerHTML now].
    rewrite <- app_assoc. repeat split.
  - destruct (ok status); cbn [negb].
    + unfold response_json, pret, pthrow.
      destruct (JSON.parse text) as [error|data];
        (eexists; split; [reflexivity|]; cbn [calls innerHTML now];
         rewrite <- app_assoc; repeat split).
    + unfold pthrow. eexists. split; [reflexivity|]. cbn [calls innerHTML now message].
      rewrite <- app_assoc. repeat split.
Qed.

End PageFacts.

Section PageToConsumer.
Import JS Runtime Lambda2 Batch Effects Ingestion Page.




End PageToConsumer.

(* ===================================================================== *)
(** ** The role of the API *)
(* ===================================================================== *)

Section IamFacts.
Import JS Cdk BackendStack Gateway Iam.

(** X17. The role the API assumes may send messages to the two primary
    queues and do nothing else: an action on a queue is allowed exactly when
    the action is [sqs:SendMessage] (in any letter case) and the queue is
    [queue1] or [queue2] by name. So each integration, which runs with this
    role, may send to its own target, and nothing may be sent to, or read
    from, a dead-letter queue through the API. *)
Theorem api_role_allows_only_sending_to_primary_queues :
  (forall action resource,
     allowed apiGatewayRole action resource = true
     <-> lower action = "sqs:sendmessage"
         /\ (queueName resource = queueName queue1 \/ queueName resource = queueName queue2))
  /\ Forall (fun entry => allowed (snd entry) "sqs:SendMessage" (target (fst entry)) = true)
       credentialsRole
  /\ Forall (fun q => forall action, allowed apiGatewayRole action q = false) deadLetterQueues.
Proof.
  assert (Hiff : forall action resource,
     allowed apiGatewayRole action resource = true
     <-> lower action = "sqs:sendmessage"
         /\ (queueName resource = queueName queue1 \/ queueName resource = queueName queue2)).
  { intros action resource. unfold allowed, statements, names.
    cbn -[String.eqb lower].
    rewrite !orb_false_r, andb_true_r, andb_true_iff, orb_true_iff, !String.eqb_eq.
    change (lower "sqs:SendMessage") with "sqs:sendmessage".
    split.
    - intros [Ha Hr]. split; [congruence|]. destruct Hr; [left|right]; congruence.
    - intros [Ha Hr]. split; [congruence|]. destruct Hr; [left|right]; congruence. }
  split; [exact Hiff|]. split.
  - repeat constructor.
  - repeat constructor; intros action;
      destruct (allowed apiGatewayRole action _) eqn:H; try reflexivity;
      apply Hiff in H as [_ [H|H]]; discriminate H.
Qed.

End IamFacts.

(* ===================================================================== *)
(** ** Deliveries and the handler's answers *)
(* ===================================================================== *)

Section RedeliveryFacts.
Import JS Runtime Lambda2 Batch Effects Cdk BackendStack QueueModel Redelivery.

(** The handler, given one record, reports it exactly when it fails. *)
Lemma single_record_reported (record : SQSRecord) w :
  exists response,
    returned (Lambda2.handler (mkEvent [record]) w) = Some response
    /\ reports response record = transformation_fails record.
Proof.
  destruct (handler_reported (mkEvent [record]) w) as (response & w' & Hret & Hrep).
  exists response. unfold returned. rewrite Hret. split; [reflexivity|].
  unfold reports. rewrite Hrep. cbn [Records]. unfold failed_records.
  rewrite filter_cons, filter_nil.
  destruct (transformation_fails record); case_decide; try congruence.
  - cbn. rewrite String.eqb_refl. reflexivity.
  - reflexivity.
Qed.

(** One attempt on a visible message of the primary queue that is within
    its retention window and below the threshold. *)
Lemma attempt_outcome (c : Config) (record : SQSRecord) w (m : Message) :
  place m = Primary -> visible m = Visible -> expired c m = false ->
  (delivered m < threshold c)%nat ->
  attempt c record w m
  = Some (if transformation_fails record
          then mkMessage Primary Visible (S (delivered m)) (S (failed m)) (sent m) (now m)
          else mkMessage Deleted Visible (S (delivered m)) (failed m) (sent m) (now m)).
Proof.
  intros Hplace Hvisible Hexpired Hbelow.
  destruct (single_record_reported record w) as (response & Hret & Hrep).
  unfold attempt. rewrite Hret, Hrep.
  assert (Hdeliver : step c Deliver m
                     = Some (mkMessage Primary (InFlight (now m + visibility c))
                               (S (delivered m)) (failed m) (sent m) (now m))).
  { unfold step. rewrite Hplace, Hvisible, Hexpired.
    apply Nat.ltb_lt in Hbelow. rewrite Hbelow. reflexivity. }
  rewrite Hdeliver.
  assert (Hstill : expired c (mkMessage Primary (InFlight (now m + visibility c))
                                (S (delivered m)) (failed m) (sent m) (now m)) = false).
  { unfold expired in *. rewrite Hplace in Hexpired. exact Hexpired. }
  destruct (transformation_fails record); unfold step; cbn [place visible]; [reflexivity|].
  rewrite Hstill. reflexivity.
Qed.

(** X18. The handler's answers drive the queue as declared (threshold 3,
    in the model of the queue): a message whose body is not JSON is reported
    at each of three deliveries, whatever the world of each invocation; a
    fourth delivery is then impossible and the queuing layer moves the message
    to the dead-letter queue. A message whose body is JSON is acknowledged and
    deleted at its first delivery. *)
Theorem poison_message_ends_in_dead_letter
    (defaults : Defaults) (q : Queue) (c : Config) (record : SQSRecord) (t : Z) w1 w2 w3 w4 :
  In q primaryQueues ->
  config_of defaults q = Some c ->
  0 <= default_retention defaults ->
  (transformation_fails record = true ->
   attempts c record [w1; w2; w3] (enqueued t)
   = Some (mkMessage Primary Visible 3 3 t t)
   /\ attempt c record w4 (mkMessage Primary Visible 3 3 t t) = None
   /\ step c Redrive (mkMessage Primary Visible 3 3 t t)
      = Some (mkMessage DeadLetter Visible 3 3 t t))
  /\ (transformation_fails record = false ->
      attempt c record w1 (enqueued t) = Some (mkMessage Deleted Visible 1 0 t t)).
Proof.
  intros Hq Hc Hdefault.
  destruct (config_of_primary _ _ _ Hq Hc) as (Hthreshold & _ & Hprimary & _).
  assert (Hfresh : forall d f, expired c (mkMessage Primary Visible d f t t) = false).
  { intros d f. unfold expired. cbn [place retention now sent].
    rewrite Hprimary, Z.sub_diag. apply Z.ltb_ge. exact Hdefault. }
  split.
  - intros Hfails. split; [|split].
    + cbn [attempts]. unfold enqueued.
      rewrite (attempt_outcome c record w1 (mkMessage Primary Visible 0 0 t t)
                 eq_refl eq_refl (Hfresh _ _))
        by (rewrite Hthreshold; cbn; lia).
      rewrite Hfails. cbn [delivered failed sent now].
      rewrite (attempt_outcome c record w2 (mkMessage Primary Visible 1 1 t t)
                 eq_refl eq_refl (Hfresh _ _))
        by (rewrite Hthreshold; cbn; lia).
      rewrite Hfails. cbn [delivered failed sent now].
      rewrite (attempt_outcome c record w3 (mkMessage Primary Visible 2 2 t t)
                 eq_refl eq_refl (Hfresh _ _))
        by (rewrite Hthreshold; cbn; lia).
      rewrite Hfails. reflexivity.
    + unfold attempt, step. cbn [place visible delivered].
      rewrite Hthreshold, andb_false_r. reflexivity.
    + unfold step. cbn [place visible delivered]. rewrite Hthreshold. reflexivity.
  - intros Hok. unfold enqueued.
    rewrite (attempt_outcome c record w1 (mkMessage Primary Visible 0 0 t t)
               eq_refl eq_refl (Hfresh _ _))
      by (rewrite Hthreshold; cbn; lia).
    rewrite Hok. reflexivity.
Qed.

Lemma poison_message_ends_in_dead_letter_witness :
  attempts (mkConfig 3 60 345600 1209600) malformed [world0; world0; world0] (enqueued 0)
  = Some (mkMessage Primary Visible 3 3 0 0)
  /\ attempt (mkConfig 3 60 345600 1209600) hello world0 (enqueued 0)
     = Some (mkMessage Deleted Visible 1 0 0 0).
Proof.
  destruct (poison_message_ends_in_dead_letter example_defaults queue2
              (mkConfig 3 60 345600 1209600) malformed 0 world0 world0 world0 world0)
    as [Hpoison _]; [right; left; reflexivity | reflexivity | cbn; lia |].
  destruct (poison_message_ends_in_dead_letter example_defaults queue2
              (mkConfig 3 60 345600 1209600) hello 0 world0 world0 world0 world0)
    as [_ Hgood]; [right; left; reflexivity | reflexivity | cbn; lia |].
  split; [exact (proj1 (Hpoison eq_refl)) | exact (Hgood eq_refl)].
Defined.

End RedeliveryFacts.

(* ===================================================================== *)
(** ** More of the embedding at work *)
(* ===================================================================== *)

Section MoreExamples.
Import JS Runtime Lambda2 Batch Effects Cdk BackendStack Gateway Ingestion Frontend Page Iam.

Example quote_escapes :
  quote (dq "say 'hi'\") = dq "'say \'hi\'\\'".
Proof. reflexivity. Qed.

Example quote_control :
  quote (String "010" (String "001" EmptyString)) = dq "'\n\u0001'".
Proof. reflexivity. Qed.

Example matches_any_one : path_matches "/a?c/*.js" "/abc/x/y.js" = true.
Proof. reflexivity. Qed.

Example matches_is_case_sensitive : path_matches "/api/*" "/API/sample-lambda-1" = false.
Proof. reflexivity. Qed.

Example api_without_slash : path_matches "/api/*" "/api" = false.
Proof. reflexivity. Qed.

Example segments_of_endpoint : segments "/api/sample-lambda-1" = ["api"; "sample-lambda-1"].
Proof. reflexivity. Qed.

Example role_allows_lower_case : allowed apiGatewayRole "SQS:sendmessage" queue1 = true.
Proof. reflexivity. Qed.

Example role_denies_receive : allowed apiGatewayRole "sqs:ReceiveMessage" queue1 = false.
Proof. reflexivity. Qed.

Example testLambda1_rejected :
  innerHTML (snd (testLambda1 (browser (Rejected (mkError "TypeError" "Failed to fetch")))))
  = [ Calling "Sample Lambda 1"; CallFailed "Sample Lambda 1" "Failed to fetch" ].
Proof. reflexivity. Qed.

Example testLambda1_not_json :
  innerHTML (snd (testLambda1 (browser (Resolved 200 "OK" "<html>"))))
  = [ Calling "Sample Lambda 1";
      CallFailed "Sample Lambda 1" "Unexpected token < in JSON at position 0" ].
Proof. reflexivity. Qed.

Example delivered_attributes :
  attribute_string (delivered_record (mkSendMessage "{}" (stamped example_request)) "i" "r")
    "RequestId"
  = Some "c6af9ac6-7b61-11e6-9a41-93e8deadbeef".
Proof. reflexivity. Qed.

Example not_json_is_accepted_then_fails :
  enqueue_call root
    (mkRequest "POST" ["api"; "sample-lambda-2"] "application/json" "not json" "1f")
  = Some (queue2, mkSendMessage "not json"
                    [ ("Source", mkMessageAttributeValue "String" (Some "API-Gateway"));
                      ("RequestId", mkMessageAttributeValue "String" (Some "1f")) ])
  /\ transformation_fails
       (delivered_record
          (mkSendMessage "not json"
             [ ("Source", mkMessageAttributeValue "String" (Some "API-Gateway"));
               ("RequestId", mkMessageAttributeValue "String" (Some "1f")) ]) "i" "r")
     = true.
Proof. split; reflexivity. Qed.

End MoreExamples.
